(** * sessioninit.Cache: the versioned authentication cache

    A shallow embedding of [pkg/sql/sessioninit/cache.go] and the properties
    of its staleness protocol, write-back recheck, memory accounting and
    request coalescing. *)

From Stdlib Require Import ZArith String List Lia.
From stdpp Require Import base gmap strings pretty list fin_maps.

Open Scope Z_scope.

(** ** Go-level data *)

(** [descpb.DescriptorVersion] and [descpb.ID] are unsigned integers; the
    cache only compares and copies them, so no arithmetic can wrap. *)
Abbreviation DescriptorVersion := N (only parsing).
Abbreviation ID := N (only parsing).

(** Go's [error] interface: the cache only passes errors along. *)
Abbreviation error := string (only parsing).

(** [int] is 64 bits wide on the platforms the server runs on; additions on
    it wrap around in two's complement. *)
Definition wrap64 (z : Z) : Z := (z + 2 ^ 63) mod 2 ^ 64 - 2 ^ 63.

Definition intAdd (a b : Z) : Z := wrap64 (a + b).

(** [len(s)] of a Go string: its number of bytes. *)
Definition len (s : string) : Z := Z.of_nat (String.length s).

(** [security.SQLUsername] wraps the normalized name. *)
Record SQLUsername := MakeSQLUsername { Normalized : string }.

#[global] Instance SQLUsername_eq_dec : EqDecision SQLUsername.
Proof. solve_decision. Defined.

#[global] Instance SQLUsername_countable : Countable SQLUsername :=
  inj_countable' Normalized MakeSQLUsername (fun u => match u with MakeSQLUsername _ => eq_refl end).

(** Modelled from the spec: [security.PasswordHash], declared outside
    [cache.go]; an opaque hash whose [Size()] is the byte count charged to the
    memory account. *)
Record PasswordHash := MakePasswordHash { hashPayload : string }.

Definition Size (h : PasswordHash) : Z := len (hashPayload h).

(** AuthInfo contains data that is used to perform an authentication attempt. *)
Record AuthInfo := {
  UserExists : bool;
  CanLoginSQL : bool;
  CanLoginDBConsole : bool;
  HashedPassword : option PasswordHash;   (* interface value, may be nil *)
  ValidUntil : option Z                   (* pointer to a timestamp, may be nil *)
}.

(** The zero value [AuthInfo{}]. *)
Definition AuthInfo_zero : AuthInfo :=
  {| UserExists := false; CanLoginSQL := false; CanLoginDBConsole := false;
     HashedPassword := None; ValidUntil := None |}.

(** SettingsCacheKey is the key used for the settingsCache. *)
Record SettingsCacheKey := { DatabaseID : ID; Username : SQLUsername }.

#[global] Instance SettingsCacheKey_eq_dec : EqDecision SettingsCacheKey.
Proof. solve_decision. Defined.

#[global] Instance SettingsCacheKey_countable : Countable SettingsCacheKey :=
  inj_countable' (fun k => (DatabaseID k, Username k))
                 (fun p => {| DatabaseID := fst p; Username := snd p |})
                 (fun k => match k with Build_SettingsCacheKey _ _ => eq_refl end).

(** SettingsCacheEntry embeds its key and carries the ordered settings. *)
Record SettingsCacheEntry := {
  entryKey : SettingsCacheKey;
  Settings : list string
}.

(** Modelled from the spec: [defaultDatabaseID] and [defaultUsername], the
    sentinels declared in [constants.go]: database ID 0 stands for "no
    specific database" and the empty username for "the default role". *)
Definition defaultDatabaseID : ID := 0%N.
Definition defaultUsername : SQLUsername := MakeSQLUsername "".

(** ** Go maps

    A Go map value is either nil or an allocated table. Reading a nil map
    finds nothing; assigning into a nil map panics. *)
Section GoMap.
Context {K V : Type} `{Countable K}.

Definition mapGet (m : option (gmap K V)) (k : K) : option V :=
  match m with
  | None => None
  | Some g => g !! k
  end.

(** [m[k] = v]; [None] is the run-time panic on a nil map. *)
Definition mapSet (m : option (gmap K V)) (k : K) (v : V) : option (option (gmap K V)) :=
  match m with
  | None => None
  | Some g => Some (Some (<[k := v]> g))
  end.

(** [make(map[K]V)]. *)
Definition mapMake : option (gmap K V) := Some ∅.
End GoMap.

(** ** The memory account *)

(** Modelled from the spec: [mon.BoundAccount], declared in [pkg/util/mon]:
    a bounded allocation ledger. A request to grow by a byte count either
    succeeds, reserving the bytes, or fails because the budget is exhausted;
    emptying resets the usage to zero. *)
Record BoundAccount := { used : Z; budget : Z }.

Definition Grow (b : BoundAccount) (x : Z) : BoundAccount * option error :=
  if used b + x <=? budget b
  then ({| used := used b + x; budget := budget b |}, None)
  else (b, Some "memory budget exceeded"%string).

Definition Empty (b : BoundAccount) : BoundAccount :=
  {| used := 0; budget := budget b |}.

(** ** The cache *)

(** Cache is a shared cache for hashed passwords and other information used
    during user authentication and session initialization. The mutex is
    rendered by making every locked region one function on the state; the
    coalescing group is modelled with the concurrent calls below. *)
Record Cache := {
  usersTableVersion : DescriptorVersion;
  roleOptionsTableVersion : DescriptorVersion;
  dbRoleSettingsTableVersion : DescriptorVersion;
  boundAccount : BoundAccount;
  authInfoCache : option (gmap SQLUsername AuthInfo);
  settingsCache : option (gmap SettingsCacheKey (list string))
}.

(** NewCache initializes a new sessioninit.Cache: every field but the
    account has its zero value, so both maps are nil. *)
Definition NewCache (account : BoundAccount) : Cache :=
  {| usersTableVersion := 0%N;
     roleOptionsTableVersion := 0%N;
     dbRoleSettingsTableVersion := 0%N;
     boundAccount := account;
     authInfoCache := None;
     settingsCache := None |}.

(** clearCacheIfStale compares the cached table versions to the current
    table versions. If the cached versions are older, the cache is cleared.
    If the cached versions are newer, then false is returned to indicate
    that the cached data should not be used. *)
Definition clearCacheIfStale
    (usersV roleOptionsV dbRoleSettingsV : DescriptorVersion) (a : Cache) : bool * Cache :=
  if (usersTableVersion a <? usersV)%N
     || (roleOptionsTableVersion a <? roleOptionsV)%N
     || (dbRoleSettingsTableVersion a <? dbRoleSettingsV)%N
  then
    (true,
     {| usersTableVersion := usersV;
        roleOptionsTableVersion := roleOptionsV;
        dbRoleSettingsTableVersion := dbRoleSettingsV;
        boundAccount := Empty (boundAccount a);
        authInfoCache := mapMake;
        settingsCache := mapMake |})
  else if (usersV <? usersTableVersion a)%N
          || (roleOptionsV <? roleOptionsTableVersion a)%N
          || (dbRoleSettingsV <? dbRoleSettingsTableVersion a)%N
  then (false, a)
  else (true, a).

(** GenerateSettingsCacheKeys returns a slice of all the SettingsCacheKey
    that are relevant for the given databaseID and username, in descending
    order of precedence. *)
Definition GenerateSettingsCacheKeys (databaseID : ID) (username : SQLUsername)
    : list SettingsCacheKey :=
  [ {| DatabaseID := databaseID; Username := username |};
    {| DatabaseID := defaultDatabaseID; Username := username |};
    {| DatabaseID := databaseID; Username := defaultUsername |};
    {| DatabaseID := defaultDatabaseID; Username := defaultUsername |} ].

(** readAuthInfoFromCache: the locked region that checks the versions and
    looks the user up. The settings version is not checked here, so the
    stored one is passed in. A missing key yields the zero value. *)
Definition readAuthInfoFromCache
    (usersV roleOptionsV : DescriptorVersion) (username : SQLUsername) (a : Cache)
    : (AuthInfo * bool) * Cache :=
  let '(isEligibleForCache, a1) :=
    clearCacheIfStale usersV roleOptionsV (dbRoleSettingsTableVersion a) a in
  if negb isEligibleForCache then ((AuthInfo_zero, false), a1)
  else match mapGet (authInfoCache a1) username with
       | Some ai => ((ai, true), a1)
       | None => ((AuthInfo_zero, false), a1)
       end.

(** The search loop of readDefaultSettingsFromCache: it walks the keys in
    order, appends each entry found and breaks at the first absent key. *)
Fixpoint lookupSettings (m : option (gmap SettingsCacheKey (list string)))
    (keys : list SettingsCacheKey) (sEntries : list SettingsCacheEntry)
    : list SettingsCacheEntry * bool :=
  match keys with
  | [] => (sEntries, true)
  | k :: rest =>
      match mapGet m k with
      | None => (sEntries, false)
      | Some s => lookupSettings m rest (sEntries ++ [ {| entryKey := k; Settings := s |} ])
      end
  end.

Definition readDefaultSettingsFromCache
    (dbRoleSettingsV : DescriptorVersion) (username : SQLUsername) (databaseID : ID) (a : Cache)
    : (list SettingsCacheEntry * bool) * Cache :=
  let '(isEligibleForCache, a1) :=
    clearCacheIfStale (usersTableVersion a) (roleOptionsTableVersion a) dbRoleSettingsV a in
  if negb isEligibleForCache then (([], false), a1)
  else (lookupSettings (settingsCache a1) (GenerateSettingsCacheKeys databaseID username) [], a1).

(** ** Effects: the shared cache, the operations log and panics *)

(** A line written through [log.Ops.Warningf]. *)
Inductive LogEntry := OpsWarningf (format : string) (err : error).

Record World := { cache : Cache; opsLog : list LogEntry }.

Inductive outcome (A : Type) : Type :=
| Ok (a : A) (w : World)
| Panic (reason : string).
Arguments Ok {A} a w.
Arguments Panic {A} reason.

Definition M (A : Type) : Type := World -> outcome A.

#[global] Instance M_ret : MRet M := fun A a w => Ok a w.

#[global] Instance M_bind : MBind M := fun A B k m w =>
  match m w with
  | Ok a w' => k a w'
  | Panic r => Panic r
  end.

Definition getCache : M Cache := fun w => Ok (cache w) w.

Definition putCache (c : Cache) : M unit :=
  fun w => Ok tt {| cache := c; opsLog := opsLog w |}.

(** A region that runs under the mutex and neither logs nor panics. *)
Definition locked {A : Type} (f : Cache -> A * Cache) : M A :=
  fun w => let '(a, c) := f (cache w) in Ok a {| cache := c; opsLog := opsLog w |}.

Definition Warningf (format : string) (err : error) : M unit :=
  fun w => Ok tt {| cache := cache w; opsLog := opsLog w ++ [OpsWarningf format err] |}.

Definition panic {A : Type} (reason : string) : M A := fun _ => Panic reason.

Definition setBoundAccount (b : BoundAccount) (a : Cache) : Cache :=
  {| usersTableVersion := usersTableVersion a;
     roleOptionsTableVersion := roleOptionsTableVersion a;
     dbRoleSettingsTableVersion := dbRoleSettingsTableVersion a;
     boundAccount := b;
     authInfoCache := authInfoCache a;
     settingsCache := settingsCache a |}.

Definition setAuthInfoCache (m : option (gmap SQLUsername AuthInfo)) (a : Cache) : Cache :=
  {| usersTableVersion := usersTableVersion a;
     roleOptionsTableVersion := roleOptionsTableVersion a;
     dbRoleSettingsTableVersion := dbRoleSettingsTableVersion a;
     boundAccount := boundAccount a;
     authInfoCache := m;
     settingsCache := settingsCache a |}.

Definition setSettingsCache (m : option (gmap SettingsCacheKey (list string))) (a : Cache) : Cache :=
  {| usersTableVersion := usersTableVersion a;
     roleOptionsTableVersion := roleOptionsTableVersion a;
     dbRoleSettingsTableVersion := dbRoleSettingsTableVersion a;
     boundAccount := boundAccount a;
     authInfoCache := authInfoCache a;
     settingsCache := m |}.

(** ** Write-back *)

(** The [unsafe.Sizeof] constants, for the 64-bit layout: a string header
    is 16 bytes, an interface value 16, a pointer 8, a slice header 24 and
    [time.Time] 24; a 32-bit [descpb.ID] is padded to 8 in front of a string.
    No property below depends on their values. *)
Definition sizeOfUsername : Z := 16.
Definition sizeOfAuthInfo : Z := 32.
Definition sizeOfTimestamp : Z := 24.
Definition sizeOfSettingsCacheEntry : Z := 48.

Definition nilMapPanic : string := "assignment to entry in nil map".
Definition noMemoryFormat : string := "no memory available to cache authentication info: %v".

(** The size charged for one AuthInfo entry. *)
Definition sizeOfEntry (aInfo : AuthInfo) (username : SQLUsername) : Z :=
  let hpSize := match HashedPassword aInfo with
                | Some h => Size h
                | None => 0
                end in
  intAdd (intAdd (intAdd (intAdd sizeOfUsername (len (Normalized username)))
                         sizeOfAuthInfo) hpSize) sizeOfTimestamp.

(** maybeWriteAuthInfoBackToCache tries to put the fetched AuthInfo into the
    authInfoCache. If the underlying system tables have been modified since
    they were read, the authInfoCache is not updated. *)
Definition maybeWriteAuthInfoBackToCache
    (usersV roleOptionsV : DescriptorVersion) (aInfo : AuthInfo) (username : SQLUsername)
    : M bool :=
  a ← getCache;
  if negb (usersTableVersion a =? usersV)%N || negb (roleOptionsTableVersion a =? roleOptionsV)%N
  then mret false
  else
    let '(acct, err) := Grow (boundAccount a) (sizeOfEntry aInfo username) in
    match err with
    | Some e =>
        _ ← putCache (setBoundAccount acct a);
        _ ← Warningf noMemoryFormat e;
        mret true
    | None =>
        match mapSet (authInfoCache a) username aInfo with
        | None => panic nilMapPanic
        | Some m =>
            _ ← putCache (setAuthInfoCache m (setBoundAccount acct a));
            mret true
        end
    end.

(** The accounting loop of maybeWriteDefaultSettingsBackToCache: an entry
    whose key is already in the cache is skipped; any other adds the entry
    overhead, the length of its username and the length of each setting. *)
Definition sizeOfSettings (m : option (gmap SettingsCacheKey (list string)))
    (settingsEntries : list SettingsCacheEntry) : Z :=
  fold_left
    (fun acc sEntry =>
       match mapGet m (entryKey sEntry) with
       | Some _ => acc
       | None =>
           fold_left (fun acc' s => intAdd acc' (len s)) (Settings sEntry)
             (intAdd (intAdd acc sizeOfSettingsCacheEntry)
                     (len (Normalized (Username (entryKey sEntry)))))
       end)
    settingsEntries 0.

(** The storing loop: an existing key is never stored again; [None] is the
    panic of an assignment into a nil map. *)
Fixpoint storeSettings (m : option (gmap SettingsCacheKey (list string)))
    (settingsEntries : list SettingsCacheEntry)
    : option (option (gmap SettingsCacheKey (list string))) :=
  match settingsEntries with
  | [] => Some m
  | sEntry :: rest =>
      match mapGet m (entryKey sEntry) with
      | Some _ => storeSettings m rest
      | None =>
          match mapSet m (entryKey sEntry) (Settings sEntry) with
          | None => None
          | Some m' => storeSettings m' rest
          end
      end
  end.

(** maybeWriteDefaultSettingsBackToCache tries to put the fetched
    SettingsCacheEntry list into the settingsCache. If the underlying system
    tables have been modified since they were read, the settingsCache is not
    updated. *)
Definition maybeWriteDefaultSettingsBackToCache
    (dbRoleSettingsV : DescriptorVersion) (settingsEntries : list SettingsCacheEntry)
    : M bool :=
  a ← getCache;
  if negb (dbRoleSettingsTableVersion a =? dbRoleSettingsV)%N
  then mret false
  else
    let '(acct, err) := Grow (boundAccount a) (sizeOfSettings (settingsCache a) settingsEntries) in
    match err with
    | Some e =>
        _ ← putCache (setBoundAccount acct a);
        _ ← Warningf noMemoryFormat e;
        mret true
    | None =>
        match storeSettings (settingsCache a) settingsEntries with
        | None => panic nilMapPanic
        | Some m =>
            _ ← putCache (setSettingsCache m (setBoundAccount acct a));
            mret true
        end
    end.

(** ** Coalesced loading *)

(** The values that travel through the coalescing group as [interface{}]. *)
Inductive iface :=
| IAuthInfo (aInfo : AuthInfo)
| ISettings (settingsEntries : list SettingsCacheEntry).

(** [singleflight.Result], as delivered on the channel. *)
Record Result := { Val : iface; Err : option error }.

(** What the [select] of loadCacheValue observes first: the result on the
    channel, or the caller's own context being done. *)
Inductive SelectEvent :=
| Received (res : Result)
| CtxDone (ctxErr : error).

(** The [select] of loadCacheValue, once the request has been handed to the
    group: an error, whether delivered or the caller's own, comes with the
    zero AuthInfo. *)
Definition loadCacheValue (ev : SelectEvent) : iface * option error :=
  match ev with
  | Received res =>
      match Err res with
      | Some e => (IAuthInfo AuthInfo_zero, Some e)
      | None => (Val res, None)
      end
  | CtxDone e => (IAuthInfo AuthInfo_zero, Some e)
  end.

(** ** The collaborators of one call *)

Inductive SystemTable :=
| UsersTableName
| RoleOptionsTableName
| DatabaseRoleSettingsTableName.

(** What the cache reads of a table descriptor. *)
Record TableDesc := { GetVersion : DescriptorVersion; IsUncommittedVersion : bool }.

(** The surroundings of one call: the cluster setting, the descriptor
    collection of the call's transaction (the closure handed to
    [CollectionFactory.Txn] is taken to run once, its error returned as it
    is), what the wait on the coalescing group observes, and what other
    goroutines do to the cache while this call waits outside the mutex. *)
Record Env := {
  CacheEnabled : bool;
  GetImmutableTableByName : SystemTable -> TableDesc + error;
  GetImmutableDatabaseByName : string -> option ID + error;
  selectEvent : SelectEvent;
  interference : Cache -> Cache
}.

Definition unlockedWait (env : Env) : M unit :=
  fun w => Ok tt {| cache := interference env (cache w); opsLog := opsLog w |}.

Definition typeAssertPanic : string := "interface conversion".

(** GetAuthInfo consults the sessioninit.Cache and returns the AuthInfo for
    the provided username. If the information is not in the cache, or if the
    underlying tables have changed since the cache was populated, then the
    readFromSystemTables callback is used to load new data. *)
Definition GetAuthInfo (env : Env) (username : SQLUsername)
    (readFromSystemTables : SQLUsername -> AuthInfo * option error)
    : M (AuthInfo * option error) :=
  if negb (CacheEnabled env) then mret (readFromSystemTables username)
  else
    match GetImmutableTableByName env UsersTableName with
    | inr err => mret (AuthInfo_zero, Some err)
    | inl usersTableDesc =>
    match GetImmutableTableByName env RoleOptionsTableName with
    | inr err => mret (AuthInfo_zero, Some err)
    | inl roleOptionsTableDesc =>
        if IsUncommittedVersion usersTableDesc || IsUncommittedVersion roleOptionsTableDesc
        then mret (readFromSystemTables username)
        else
          let usersV := GetVersion usersTableDesc in
          let roleOptionsV := GetVersion roleOptionsTableDesc in
          '(aInfo, found) ← locked (readAuthInfoFromCache usersV roleOptionsV username);
          if found : bool then mret (aInfo, None)
          else
            _ ← unlockedWait env;
            match loadCacheValue (selectEvent env) with
            | (_, Some err) => mret (aInfo, Some err)
            | (IAuthInfo fetched, None) =>
                _ ← maybeWriteAuthInfoBackToCache usersV roleOptionsV fetched username;
                mret (fetched, None)
            | (ISettings _, None) => panic typeAssertPanic
            end
    end
    end.

(** The database lookup at the head of GetDefaultSettings: no name, or a
    name that resolves to no descriptor, leaves the ID at 0; only a failing
    lookup is an error. *)
Definition resolveDatabaseID (env : Env) (databaseName : string) : ID + error :=
  if String.eqb databaseName "" then inl 0%N
  else match GetImmutableDatabaseByName env databaseName with
       | inr err => inr err
       | inl None => inl 0%N
       | inl (Some dbID) => inl dbID
       end.

(** GetDefaultSettings consults the sessioninit.Cache and returns the list
    of SettingsCacheEntry for the provided username and databaseName. If the
    information is not in the cache, or if the underlying tables have
    changed since the cache was populated, then the readFromSystemTables
    callback is used to load new data. *)
Definition GetDefaultSettings (env : Env) (username : SQLUsername) (databaseName : string)
    (readFromSystemTables : SQLUsername -> ID -> list SettingsCacheEntry * option error)
    : M (list SettingsCacheEntry * option error) :=
  match GetImmutableTableByName env DatabaseRoleSettingsTableName with
  | inr err => mret ([], Some err)
  | inl dbRoleSettingsTableDesc =>
  match resolveDatabaseID env databaseName with
  | inr err => mret ([], Some err)
  | inl databaseID =>
      if IsUncommittedVersion dbRoleSettingsTableDesc || negb (CacheEnabled env)
      then mret (readFromSystemTables username databaseID)
      else
        let dbRoleSettingsV := GetVersion dbRoleSettingsTableDesc in
        '(settingsEntries, found) ←
          locked (readDefaultSettingsFromCache dbRoleSettingsV username databaseID);
        if found : bool then mret (settingsEntries, None)
        else
          _ ← unlockedWait env;
          match loadCacheValue (selectEvent env) with
          | (_, Some err) => mret (settingsEntries, Some err)
          | (ISettings fetched, None) =>
              _ ← maybeWriteDefaultSettingsBackToCache dbRoleSettingsV fetched;
              mret (fetched, None)
          | (IAuthInfo _, None) => panic typeAssertPanic
          end
  end
  end.

(** ** The charge for settings entries, as the design states it

    Size is accumulated only for keys not already present: each such entry
    costs its fixed overhead, the bytes of its username and the bytes of
    each of its settings. *)
Definition entryCharge (sEntry : SettingsCacheEntry) : Z :=
  sizeOfSettingsCacheEntry + len (Normalized (Username (entryKey sEntry)))
  + foldr (fun s total => len s + total) 0 (Settings sEntry).

Definition isAbsent (m : option (gmap SettingsCacheKey (list string)))
    (sEntry : SettingsCacheEntry) : bool :=
  match mapGet m (entryKey sEntry) with
  | None => true
  | Some _ => false
  end.

Definition totalCharge (m : option (gmap SettingsCacheKey (list string)))
    (settingsEntries : list SettingsCacheEntry) : Z :=
  foldr (fun sEntry total => entryCharge sEntry + total) 0
        (List.filter (isAbsent m) settingsEntries).

(** ** Sequences of operations on the embedded state *)

Inductive Op :=
| OpReadAuthInfo (usersV roleOptionsV : DescriptorVersion) (username : SQLUsername)
| OpReadDefaultSettings (dbRoleSettingsV : DescriptorVersion) (username : SQLUsername)
    (databaseID : ID)
| OpWriteAuthInfo (usersV roleOptionsV : DescriptorVersion) (aInfo : AuthInfo)
    (username : SQLUsername)
| OpWriteDefaultSettings (dbRoleSettingsV : DescriptorVersion)
    (settingsEntries : list SettingsCacheEntry)
| OpClearCacheIfStale (usersV roleOptionsV dbRoleSettingsV : DescriptorVersion).

Definition runOp (op : Op) : M unit :=
  match op with
  | OpReadAuthInfo uv rv u => _ ← locked (readAuthInfoFromCache uv rv u); mret tt
  | OpReadDefaultSettings dv u db => _ ← locked (readDefaultSettingsFromCache dv u db); mret tt
  | OpWriteAuthInfo uv rv ai u => _ ← maybeWriteAuthInfoBackToCache uv rv ai u; mret tt
  | OpWriteDefaultSettings dv es => _ ← maybeWriteDefaultSettingsBackToCache dv es; mret tt
  | OpClearCacheIfStale uv rv dv => _ ← locked (clearCacheIfStale uv rv dv); mret tt
  end.

Fixpoint runOps (ops : list Op) : M unit :=
  match ops with
  | [] => mret tt
  | op :: rest => _ ← runOp op; runOps rest
  end.

(** The states a cache can be in: those reached from a fresh cache by
    operations that return. *)
Inductive reachable (account : BoundAccount) : World -> Prop :=
| reachable_new : reachable account {| cache := NewCache account; opsLog := [] |}
| reachable_step w op w' :
    reachable account w -> runOp op w = Ok tt w' -> reachable account w'.

(** The three watermarks of a cache. *)
Definition watermarks (a : Cache) : DescriptorVersion * DescriptorVersion * DescriptorVersion :=
  (usersTableVersion a, roleOptionsTableVersion a, dbRoleSettingsTableVersion a).

(** ** Concurrent calls of GetAuthInfo

    Calls run as goroutines that interleave at the points where GetAuthInfo
    takes or releases the mutex, hands its request to the coalescing group,
    and waits in the [select] of loadCacheValue. *)

(** The request key, [fmt.Sprintf("authinfo-%s-%d-%d", ...)]. *)
Definition authInfoRequestKey (username : SQLUsername)
    (usersV roleOptionsV : DescriptorVersion) : string :=
  "authinfo-" +:+ Normalized username +:+ "-" +:+ pretty usersV +:+ "-" +:+ pretty roleOptionsV.

(** Modelled from the spec: [singleflight.Group], declared in
    [pkg/util/syncutil/singleflight]: a keyed registry of shared futures.
    The first caller for a key creates a shared future and begins the load;
    later callers for the same key attach to the same future; completion
    broadcasts the result to all attached waiters, and the registry entry is
    removed once settled. Futures are numbered in the order in which they
    are created, so future [k] stands for the [k]-th execution of the load
    function; a pending future holds [None]. *)
Record Group := {
  inFlight : gmap string nat;
  futures : list (option Result)
}.

Definition emptyGroup : Group := {| inFlight := ∅; futures := [] |}.

(** [DoChan]: attach to the future in flight for the key, or create one. *)
Definition DoChan (key : string) (g : Group) : nat * Group :=
  match inFlight g !! key with
  | Some k => (k, g)
  | None =>
      let k := length (futures g) in
      (k, {| inFlight := <[key := k]> (inFlight g); futures := futures g ++ [None] |})
  end.

(** The load function of the flight for [key] has returned [res]: the
    future is settled and the key leaves the registry. *)
Definition settle (key : string) (res : Result) (g : Group) : option Group :=
  match inFlight g !! key with
  | Some k =>
      Some {| inFlight := delete key (inFlight g);
              futures := <[k := Some res]> (futures g) |}
  | None => None
  end.

(** How a finished call came by its result. *)
Inductive Source :=
| FromCache
| FromFlight (k : nat)
| FromContext.

(** Where one call of GetAuthInfo stands: before its cache read, after a
    miss and before handing the request to the group, waiting in [select]
    on future [k], holding the value fetched by flight [k] before the
    write-back, or returned. *)
Inductive Caller :=
| AtRead
| AtDoChan
| AtSelect (k : nat)
| AtWriteBack (k : nat) (fetched : AuthInfo)
| Returned (src : Source) (res : AuthInfo * option error).

Record System := {
  world : World;
  populateCacheGroup : Group;
  callers : list Caller
}.

Inductive Event :=
| Step (i : nat)                          (* caller i runs to its next point *)
| CtxCancel (i : nat) (ctxErr : error)    (* caller i's own context is done *)
| FnReturns.                              (* the load function in flight returns *)

Definition isReturned (c : Caller) : bool :=
  match c with
  | Returned _ _ => true
  | _ => false
  end.

(** What a caller receives from an execution that returned [(aInfo, err)]. *)
Definition outcomeOf (r : AuthInfo * option error) : AuthInfo * option error :=
  match snd r with
  | Some e => (AuthInfo_zero, Some e)
  | None => (fst r, None)
  end.

Section Coalescing.

(** All calls are for the same user at the same table versions, the cache
    is enabled and both descriptors are committed; [readFromSystemTables k]
    is what the [k]-th execution of the callback returns. *)
Variable username : SQLUsername.
Variables usersV roleOptionsV : DescriptorVersion.
Variable readFromSystemTables : nat -> AuthInfo * option error.

Definition setCaller (i : nat) (c : Caller) (w : World) (g : Group) (s : System) : System :=
  {| world := w; populateCacheGroup := g; callers := <[i := c]> (callers s) |}.

Definition stepCaller (i : nat) (s : System) : option System :=
  match callers s !! i with
  | Some AtRead =>
      match locked (readAuthInfoFromCache usersV roleOptionsV username) (world s) with
      | Ok (aInfo, true) w =>
          Some (setCaller i (Returned FromCache (aInfo, None)) w (populateCacheGroup s) s)
      | Ok (_, false) w => Some (setCaller i AtDoChan w (populateCacheGroup s) s)
      | Panic _ => None
      end
  | Some AtDoChan =>
      let '(k, g) := DoChan (authInfoRequestKey username usersV roleOptionsV)
                       (populateCacheGroup s) in
      Some (setCaller i (AtSelect k) (world s) g s)
  | Some (AtSelect k) =>
      match futures (populateCacheGroup s) !! k with
      | Some (Some res) =>
          match loadCacheValue (Received res) with
          | (_, Some err) =>
              Some (setCaller i (Returned (FromFlight k) (AuthInfo_zero, Some err))
                      (world s) (populateCacheGroup s) s)
          | (IAuthInfo fetched, None) =>
              Some (setCaller i (AtWriteBack k fetched) (world s) (populateCacheGroup s) s)
          | (ISettings _, None) => None
          end
      | _ => None
      end
  | Some (AtWriteBack k fetched) =>
      match maybeWriteAuthInfoBackToCache usersV roleOptionsV fetched username (world s) with
      | Ok _ w =>
          Some (setCaller i (Returned (FromFlight k) (fetched, None)) w (populateCacheGroup s) s)
      | Panic _ => None
      end
  | Some (Returned _ _) | None => None
  end.

Definition cancelCaller (i : nat) (ctxErr : error) (s : System) : option System :=
  match callers s !! i with
  | Some (AtSelect _) =>
      Some (setCaller i (Returned FromContext (AuthInfo_zero, snd (loadCacheValue (CtxDone ctxErr))))
              (world s) (populateCacheGroup s) s)
  | _ => None
  end.

Definition fnReturns (s : System) : option System :=
  let key := authInfoRequestKey username usersV roleOptionsV in
  match inFlight (populateCacheGroup s) !! key with
  | Some k =>
      let '(aInfo, err) := readFromSystemTables k in
      match settle key {| Val := IAuthInfo aInfo; Err := err |} (populateCacheGroup s) with
      | Some g => Some {| world := world s; populateCacheGroup := g; callers := callers s |}
      | None => None
      end
  | None => None
  end.

(** One event; [None] when the event cannot happen in this state (the
    caller is blocked or gone, nothing is in flight) or the step panics. *)
Definition step (ev : Event) (s : System) : option System :=
  match ev with
  | Step i => stepCaller i s
  | CtxCancel i ctxErr => cancelCaller i ctxErr s
  | FnReturns => fnReturns s
  end.

Fixpoint run (sched : list Event) (s : System) : option System :=
  match sched with
  | [] => Some s
  | ev :: rest =>
      match step ev s with
      | Some s' => run rest s'
      | None => None
      end
  end.

(** [n] calls have been made and none has taken a step yet. *)
Definition initial (w : World) (n : nat) : System :=
  {| world := w; populateCacheGroup := emptyGroup; callers := replicate n AtRead |}.

(** What the invariant says of one caller: it waits on a future that
    exists, and what it holds or returned is the outcome of its flight. *)
Definition callerOk (g : Group) (c : Caller) : Prop :=
  match c with
  | AtSelect k => (k < length (futures g))%nat
  | AtWriteBack k fetched => outcomeOf (readFromSystemTables k) = (fetched, None)
  | Returned (FromFlight k) res => res = outcomeOf (readFromSystemTables k)
  | Returned FromContext res => exists e, res = (AuthInfo_zero, Some e)
  | _ => True
  end.

(** The invariant of the group and of the callers that went through it:
    only the key of these calls is ever in flight, its future is pending,
    every pending future is the one in flight, and a settled future [k]
    holds what the [k]-th execution returned. *)
Definition groupInv (s : System) : Prop :=
  let g := populateCacheGroup s in
  let key := authInfoRequestKey username usersV roleOptionsV in
  (forall key' k, inFlight g !! key' = Some k -> key' = key /\ futures g !! k = Some None)
  /\ (forall k, futures g !! k = Some None -> inFlight g !! key = Some k)
  /\ (forall k res, futures g !! k = Some (Some res) ->
        res = {| Val := IAuthInfo (fst (readFromSystemTables k));
                 Err := snd (readFromSystemTables k) |})
  /\ (forall i c, callers s !! i = Some c -> callerOk g c).

(** The coalescing property in its strongest reading: the callback has been
    started exactly once and every caller that has returned holds what that
    one execution returned. *)
Definition coalescedExactlyOnce (s : System) : Prop :=
  length (futures (populateCacheGroup s)) = 1%nat
  /\ (forall i src res,
        callers s !! i = Some (Returned src res) ->
        res = outcomeOf (readFromSystemTables 0)).

(** The surroundings of GetAuthInfo that correspond to one call running
    with no other: flight 0 is its own. *)
Definition loneEnv : Env :=
  {| CacheEnabled := true;
     GetImmutableTableByName := fun t =>
       inl {| GetVersion := match t with
                            | UsersTableName => usersV
                            | RoleOptionsTableName => roleOptionsV
                            | DatabaseRoleSettingsTableName => 0%N
                            end;
              IsUncommittedVersion := false |};
     GetImmutableDatabaseByName := fun _ => inl None;
     selectEvent := Received {| Val := IAuthInfo (fst (readFromSystemTables 0));
                                Err := snd (readFromSystemTables 0) |};
     interference := fun c => c |}.

(** The schedule of a call that runs alone and misses the cache. *)
Definition loneSchedule : list Event :=
  [Step 0; Step 0; FnReturns; Step 0]
  ++ match snd (readFromSystemTables 0) with
     | Some _ => []
     | None => [Step 0]
     end.

(** Every caller has handed its request to flight 0, the only one. *)
Definition sharingInv (s : System) : Prop :=
  length (futures (populateCacheGroup s)) = 1%nat
  /\ (forall i c, callers s !! i = Some c ->
        match c with
        | AtRead | AtDoChan | Returned FromCache _ => False
        | AtSelect k | AtWriteBack k _ | Returned (FromFlight k) _ => k = 0%nat
        | Returned FromContext _ => True
        end).

End Coalescing.

From Stdlib Require Import Ascii.

(** ** Further notions used to describe the cache *)

(** Both maps of the cache have been allocated. *)
Definition allocated (a : Cache) : Prop :=
  is_Some (authInfoCache a) /\ is_Some (settingsCache a).

(** The settings of the first entry of a list that carries the key. *)
Fixpoint firstSettingsFor (k : SettingsCacheKey) (settingsEntries : list SettingsCacheEntry)
    : option (list string) :=
  match settingsEntries with
  | [] => None
  | sEntry :: rest =>
      if decide (entryKey sEntry = k) then Some (Settings sEntry)
      else firstSettingsFor k rest
  end.

(** The request key of GetDefaultSettings,
    [fmt.Sprintf("defaultsettings-%s-%d-%d", ...)]. *)
Definition defaultSettingsRequestKey (username : SQLUsername) (databaseID : ID)
    (dbRoleSettingsV : DescriptorVersion) : string :=
  "defaultsettings-" +:+ Normalized username +:+ "-" +:+ pretty databaseID
  +:+ "-" +:+ pretty dbRoleSettingsV.

(** A string without the separator of the request keys. *)
Fixpoint noDash (s : string) : Prop :=
  match s with
  | EmptyString => True
  | String c rest => c <> "-"%char /\ noDash rest
  end.

(** An operation whose sizes fit an [int]: the Go runtime cannot hold
    strings whose lengths add up to more. *)
Definition opFits (op : Op) : Prop :=
  match op with
  | OpWriteAuthInfo _ _ aInfo username =>
      sizeOfUsername + len (Normalized username) + sizeOfAuthInfo
      + match HashedPassword aInfo with
        | Some h => Size h
        | None => 0
        end
      + sizeOfTimestamp < 2 ^ 63
  | OpWriteDefaultSettings _ settingsEntries => totalCharge None settingsEntries < 2 ^ 63
  | _ => True
  end.

(** A cache that holds no entry and whose account has no budget. *)
Definition emptyAndBroke (a : Cache) : Prop :=
  0 <= used (boundAccount a)
  /\ budget (boundAccount a) = 0
  /\ (forall u, mapGet (authInfoCache a) u = None)
  /\ (forall k, mapGet (settingsCache a) k = None).

(** A caller that has handed its request to the coalescing group. *)
Definition joined (c : Caller) : bool :=
  match c with
  | AtSelect _ | AtWriteBack _ _ | Returned (FromFlight _) _ | Returned FromContext _ => true
  | AtRead | AtDoChan | Returned FromCache _ => false
  end.

Fixpoint countJoined (l : list Caller) : nat :=
  match l with
  | [] => 0
  | c :: rest => (if joined c then 1 else 0) + countJoined rest
  end.

(** The caller an event belongs to; the return of the load function
    belongs to none. *)
Definition eventCaller (ev : Event) : option nat :=
  match ev with
  | Step i | CtxCancel i _ => Some i
  | FnReturns => None
  end.

(** ** Formatting ALTER DATABASE ... ADD SUPER REGION

    [pkg/sql/sem/tree/alter_database.go]. A [tree.Name] is a string; the
    formatting context is rendered by the text written so far, and what
    [FormatNode] writes for a name under the context's flags is a parameter,
    [formatName]. *)
Section TreeFormat.

Variable formatName : string -> string.

Definition WriteString (s : string) (ctx : string) : string := ctx +:+ s.

Definition FormatNode (name : string) (ctx : string) : string := ctx +:+ formatName name.

(** AlterDatabaseAddSuperRegion represents an
    ALTER DATABASE ADD SUPER REGION ... statement. *)
Record AlterDatabaseAddSuperRegion := {
  DatabaseName : string;
  SuperRegionName : string;
  Regions : list string
}.

(** The loop over the regions, [i] being the index of the next one. *)
Fixpoint formatRegions (i : nat) (regions : list string) (ctx : string) : string :=
  match regions with
  | [] => ctx
  | region :: rest =>
      formatRegions (S i) rest
        (FormatNode region
           (match i with
            | O => ctx
            | S _ => WriteString "," ctx
            end))
  end.

(** Format implements the NodeFormatter interface. *)
Definition AlterDatabaseAddSuperRegion_Format (node : AlterDatabaseAddSuperRegion)
    (ctx : string) : string :=
  formatRegions 0 (Regions node)
    (WriteString " VALUES "
       (FormatNode (SuperRegionName node)
          (WriteString " ADD SUPER REGION "
             (FormatNode (DatabaseName node)
                (WriteString "ALTER DATABASE " ctx))))).

End TreeFormat.


(** ** Example data *)

Module Ex.
Definition alice : SQLUsername := MakeSQLUsername "alice".
Definition bob : SQLUsername := MakeSQLUsername "bob".

Definition aliceInfo : AuthInfo :=
  {| UserExists := true; CanLoginSQL := true; CanLoginDBConsole := true;
     HashedPassword := Some (MakePasswordHash "H"); ValidUntil := None |}.

Definition roomy : BoundAccount := {| used := 0; budget := 4096 |}.
Definition full : BoundAccount := {| used := 0; budget := 0 |}.

Definition committed (v : DescriptorVersion) : TableDesc :=
  {| GetVersion := v; IsUncommittedVersion := false |}.

(** Tables at versions users = 5, role options = 3, settings = 2; the
    only database is "app", with ID 7. *)
Definition catalog (t : SystemTable) : TableDesc + error :=
  inl (committed match t with
                 | UsersTableName => 5
                 | RoleOptionsTableName => 3
                 | DatabaseRoleSettingsTableName => 2
                 end%N).

Definition databases (name : string) : option ID + error :=
  if String.eqb name "app" then inl (Some 7%N) else inl None.

Definition env (ev : SelectEvent) (other : Cache -> Cache) : Env :=
  {| CacheEnabled := true;
     GetImmutableTableByName := catalog;
     GetImmutableDatabaseByName := databases;
     selectEvent := ev;
     interference := other |}.

Definition authReader (u : SQLUsername) : AuthInfo * option error := (aliceInfo, None).

Definition delivered (v : iface) : SelectEvent := Received {| Val := v; Err := None |}.

Definition entry (db : ID) (u : SQLUsername) (ss : list string) : SettingsCacheEntry :=
  {| entryKey := {| DatabaseID := db; Username := u |}; Settings := ss |}.

Definition bobEntries : list SettingsCacheEntry :=
  [ entry 7 bob ["timezone=utc"]; entry 0 bob []; entry 7 defaultUsername ["x=1"; "y=22"];
    entry 0 defaultUsername [] ].

Definition settingsReader (u : SQLUsername) (db : ID)
    : list SettingsCacheEntry * option error := (bobEntries, None).

Definition fresh (account : BoundAccount) : World :=
  {| cache := NewCache account; opsLog := [] |}.

(** A cache at settings version 2 that holds the first three of bob's four
    entries. *)
Definition threeOfFour : Cache :=
  setSettingsCache
    (Some (<[entryKey (entry 7 bob []) := ["timezone=utc"]]>
           (<[entryKey (entry 0 bob []) := []]>
            (<[entryKey (entry 7 defaultUsername []) := ["x=1"; "y=22"]]> ∅))))
    (snd (clearCacheIfStale 5 3 2 (NewCache roomy))).

(** Another call moving the role options watermark on to 4. *)
Definition advanceRoleOptions (c : Cache) : Cache :=
  snd (clearCacheIfStale 5 4 (dbRoleSettingsTableVersion c) c).

(** Another call moving the settings watermark on to 3. *)
Definition advanceSettings (c : Cache) : Cache :=
  snd (clearCacheIfStale (usersTableVersion c) (roleOptionsTableVersion c) 3 c).

(** The first execution of the callback finds alice; a later one fails. *)
Definition flakyReader (k : nat) : AuthInfo * option error :=
  match k with
  | O => (aliceInfo, None)
  | S _ => (AuthInfo_zero, Some "read failed"%string)
  end.

Definition twoCalls : System := initial (fresh roomy) 2.

(** Both calls miss the cache; the first one's flight settles before the
    second hands its request to the group. *)
Definition lateJoin : list Event :=
  [Step 0; Step 1; Step 0; FnReturns; Step 1; FnReturns; Step 0; Step 0; Step 1].

(** Both calls share one flight; the second one's context is done before
    the flight settles. *)
Definition cancelled : list Event :=
  [Step 0; Step 1; Step 0; Step 1; CtxCancel 1 "context canceled"; FnReturns; Step 0; Step 0].

Definition runAlice : list Event -> System -> option System :=
  run alice 5 3 flakyReader.

(** Both calls wait on flight 0. *)
Definition bothWaiting : System :=
  default twoCalls (runAlice [Step 0; Step 1; Step 0; Step 1] twoCalls).

Definition bothServed : System :=
  default twoCalls (runAlice [FnReturns; Step 1; Step 0; Step 0; Step 1] bothWaiting).
End Ex.

(** ** More example data *)

Module Ex2.
(** A fresh cache after alice's first read at versions (5, 3). *)
Definition afterRead : World :=
  {| cache := snd (readAuthInfoFromCache 5 3 Ex.alice (NewCache Ex.roomy)); opsLog := [] |}.

(** The same after alice's AuthInfo has been written back. *)
Definition aliceCached : World :=
  match maybeWriteAuthInfoBackToCache 5 3 Ex.aliceInfo Ex.alice afterRead with
  | Ok _ w => w
  | Panic _ => afterRead
  end.

(** A fresh cache after bob's first settings read at version 2. *)
Definition afterSettingsRead : World :=
  {| cache := snd (readDefaultSettingsFromCache 2 Ex.bob 7 (NewCache Ex.roomy));
     opsLog := [] |}.

Definition threeOfFourWorld : World := {| cache := Ex.threeOfFour; opsLog := [] |}.

Definition threeCached : gmap SettingsCacheKey (list string) :=
  <[entryKey (Ex.entry 7 Ex.bob []) := ["timezone=utc"]]>
    (<[entryKey (Ex.entry 0 Ex.bob []) := []]>
       (<[entryKey (Ex.entry 7 defaultUsername []) := ["x=1"; "y=22"]]> ∅)).

(** Entries that name a cached key with other settings, and a new key. *)
Definition rivalEntries : list SettingsCacheEntry :=
  [ Ex.entry 7 Ex.bob ["timezone=cet"]; Ex.entry 0 defaultUsername ["z=3"];
    Ex.entry 0 defaultUsername ["z=4"] ].

Definition disabled : Env :=
  {| CacheEnabled := false;
     GetImmutableTableByName := Ex.catalog;
     GetImmutableDatabaseByName := Ex.databases;
     selectEvent := CtxDone "unused";
     interference := fun c => c |}.

Definition lateJoined : System :=
  default Ex.twoCalls (Ex.runAlice Ex.lateJoin Ex.twoCalls).

Definition oneCancelled : System :=
  default Ex.bothWaiting
    (cancelCaller 1 "context canceled" Ex.bothWaiting).

Definition someOps : list Op :=
  [ OpReadAuthInfo 5 3 Ex.alice; OpWriteAuthInfo 5 3 Ex.aliceInfo Ex.alice;
    OpReadDefaultSettings 2 Ex.bob 7; OpWriteDefaultSettings 2 Ex.bobEntries ].
End Ex2.
(** ** The staleness check *)

Lemma orb3_true (x y z : bool) : x || y || z = true <-> x = true \/ y = true \/ z = true.
Proof. destruct x, y, z; simpl; intuition congruence. Qed.

Lemma orb3_false (x y z : bool) : x || y || z = false <-> x = false /\ y = false /\ z = false.
Proof. destruct x, y, z; simpl; intuition congruence. Qed.

Lemma clearCacheIfStale_older uv rv dv a :
  (usersTableVersion a < uv \/ roleOptionsTableVersion a < rv
   \/ dbRoleSettingsTableVersion a < dv)%N ->
  clearCacheIfStale uv rv dv a =
    (true,
     {| usersTableVersion := uv; roleOptionsTableVersion := rv;
        dbRoleSettingsTableVersion := dv;
        boundAccount := Empty (boundAccount a);
        authInfoCache := Some ∅; settingsCache := Some ∅ |}).
Proof.
  intros Hlt. unfold clearCacheIfStale.
  replace ((usersTableVersion a <? uv)%N || (roleOptionsTableVersion a <? rv)%N
           || (dbRoleSettingsTableVersion a <? dv)%N) with true; [reflexivity|].
  symmetry. apply orb3_true. rewrite !N.ltb_lt. exact Hlt.
Qed.

Lemma clearCacheIfStale_not_older uv rv dv a :
  (uv <= usersTableVersion a)%N -> (rv <= roleOptionsTableVersion a)%N ->
  (dv <= dbRoleSettingsTableVersion a)%N ->
  clearCacheIfStale uv rv dv a =
    (negb ((uv <? usersTableVersion a)%N || (rv <? roleOptionsTableVersion a)%N
           || (dv <? dbRoleSettingsTableVersion a)%N), a).
Proof.
  intros Hu Hr Hd. unfold clearCacheIfStale.
  replace ((usersTableVersion a <? uv)%N || (roleOptionsTableVersion a <? rv)%N
           || (dbRoleSettingsTableVersion a <? dv)%N) with false.
  - destruct (_ || _ || _); reflexivity.
  - symmetry. apply orb3_false. rewrite !N.ltb_ge. auto.
Qed.

(** Whatever the branch, the check either keeps the cache as it is or
    installs the caller's versions over two empty maps. *)
Lemma clearCacheIfStale_cases uv rv dv a :
  (snd (clearCacheIfStale uv rv dv a) = a
   /\ (uv <= usersTableVersion a)%N /\ (rv <= roleOptionsTableVersion a)%N
   /\ (dv <= dbRoleSettingsTableVersion a)%N)
  \/ (clearCacheIfStale uv rv dv a =
        (true,
         {| usersTableVersion := uv; roleOptionsTableVersion := rv;
            dbRoleSettingsTableVersion := dv;
            boundAccount := Empty (boundAccount a);
            authInfoCache := Some ∅; settingsCache := Some ∅ |})
      /\ (usersTableVersion a < uv \/ roleOptionsTableVersion a < rv
          \/ dbRoleSettingsTableVersion a < dv)%N).
Proof.
  destruct (N.ltb_spec (usersTableVersion a) uv) as [Hu|Hu];
  [right; split; [apply clearCacheIfStale_older|]; auto|].
  destruct (N.ltb_spec (roleOptionsTableVersion a) rv) as [Hr|Hr];
  [right; split; [apply clearCacheIfStale_older|]; auto|].
  destruct (N.ltb_spec (dbRoleSettingsTableVersion a) dv) as [Hd|Hd];
  [right; split; [apply clearCacheIfStale_older|]; auto|].
  left. rewrite clearCacheIfStale_not_older by assumption. simpl. auto.
Qed.

(** C1 (as amended): when some caller version is strictly greater than its
    stored watermark, clearCacheIfStale reports the cache eligible, sets each
    of the three watermarks to the caller's value (which is the maximum of the
    stored and the caller's value for every table whose caller version is not
    below the stored one), replaces both mappings by empty ones and resets the
    memory account to zero usage. *)
Theorem clearCacheIfStale_clears (uv rv dv : DescriptorVersion) (a : Cache) :
  (usersTableVersion a < uv \/ roleOptionsTableVersion a < rv
   \/ dbRoleSettingsTableVersion a < dv)%N ->
  let a' := snd (clearCacheIfStale uv rv dv a) in
  fst (clearCacheIfStale uv rv dv a) = true
  /\ watermarks a' = (uv, rv, dv)
  /\ ((usersTableVersion a <= uv)%N -> usersTableVersion a' = N.max (usersTableVersion a) uv)
  /\ ((roleOptionsTableVersion a <= rv)%N ->
      roleOptionsTableVersion a' = N.max (roleOptionsTableVersion a) rv)
  /\ ((dbRoleSettingsTableVersion a <= dv)%N ->
      dbRoleSettingsTableVersion a' = N.max (dbRoleSettingsTableVersion a) dv)
  /\ authInfoCache a' = Some ∅
  /\ settingsCache a' = Some ∅
  /\ (forall u, mapGet (authInfoCache a') u = None)
  /\ (forall k, mapGet (settingsCache a') k = None)
  /\ used (boundAccount a') = 0
  /\ budget (boundAccount a') = budget (boundAccount a).
Proof.
  intros Hlt a'. subst a'. rewrite (clearCacheIfStale_older _ _ _ _ Hlt). simpl.
  repeat split; try reflexivity; intros; lia.
Qed.

Lemma clearCacheIfStale_clears_witness :
  let a := snd (clearCacheIfStale 5 3 1 (NewCache {| used := 0; budget := 4096 |})) in
  watermarks (snd (clearCacheIfStale 5 4 1 a)) = (5, 4, 1)%N.
Proof.
  intros a.
  apply (clearCacheIfStale_clears 5 4 1 a).
  right; left. vm_compute. reflexivity.
Defined.

(** C1 (counterexample): with stored watermarks (5, 3, 0) a caller at
    (4, 4, 0) is newer on role options, so the clearing branch runs; the
    users watermark becomes 4, not the maximum 5 of the stored and the
    caller's value. *)
Lemma clearCacheIfStale_not_max :
  let a := snd (clearCacheIfStale 5 3 0 (NewCache {| used := 0; budget := 4096 |})) in
  watermarks a = (5, 3, 0)%N
  /\ (roleOptionsTableVersion a < 4)%N
  /\ fst (clearCacheIfStale 4 4 0 a) = true
  /\ usersTableVersion (snd (clearCacheIfStale 4 4 0 a)) = 4%N
  /\ N.max (usersTableVersion a) 4 = 5%N
  /\ usersTableVersion (snd (clearCacheIfStale 4 4 0 a)) <> N.max (usersTableVersion a) 4.
Proof. vm_compute. repeat split; try reflexivity; discriminate. Qed.


(** ** Running the monadic operations *)

Ltac run_monad :=
  unfold mbind, mret, M_bind, M_ret, locked, getCache, putCache, Warningf,
         panic in *; simpl in *.

Lemma World_eta w : {| cache := cache w; opsLog := opsLog w |} = w.
Proof. destruct w; reflexivity. Qed.

Lemma setBoundAccount_same a : setBoundAccount (boundAccount a) a = a.
Proof. destruct a; reflexivity. Qed.

Lemma locked_run {A : Type} (f : Cache -> A * Cache) w :
  locked f w = Ok (fst (f (cache w))) {| cache := snd (f (cache w)); opsLog := opsLog w |}.
Proof. unfold locked. destruct (f (cache w)); reflexivity. Qed.

Lemma Grow_failure b x e : snd (Grow b x) = Some e -> fst (Grow b x) = b.
Proof. unfold Grow. destruct (_ <=? _); simpl; [discriminate | reflexivity]. Qed.

Lemma Grow_success b x :
  snd (Grow b x) = None -> fst (Grow b x) = {| used := used b + x; budget := budget b |}.
Proof. unfold Grow. destruct (_ <=? _); simpl; [reflexivity | discriminate]. Qed.

(** The write-backs never touch a watermark. *)
Lemma maybeWriteAuthInfoBackToCache_watermarks uv rv ai u w r w' :
  maybeWriteAuthInfoBackToCache uv rv ai u w = Ok r w' ->
  watermarks (cache w') = watermarks (cache w).
Proof.
  unfold maybeWriteAuthInfoBackToCache. run_monad.
  destruct (_ || _); [intros [= _ <-]; reflexivity|].
  destruct (Grow _ _) as [acct [e|]]; [intros [= _ <-]; reflexivity|].
  destruct (mapSet _ _ _); [intros [= _ <-]; reflexivity | discriminate].
Qed.

Lemma maybeWriteDefaultSettingsBackToCache_watermarks dv es w r w' :
  maybeWriteDefaultSettingsBackToCache dv es w = Ok r w' ->
  watermarks (cache w') = watermarks (cache w).
Proof.
  unfold maybeWriteDefaultSettingsBackToCache. run_monad.
  destruct (negb _); [intros [= _ <-]; reflexivity|].
  destruct (Grow _ _) as [acct [e|]]; [intros [= _ <-]; reflexivity|].
  destruct (storeSettings _ _); [intros [= _ <-]; reflexivity | discriminate].
Qed.

(** What a single staleness check does to the watermarks. *)
Lemma clearCacheIfStale_watermarks uv rv dv a :
  let a' := snd (clearCacheIfStale uv rv dv a) in
  (watermarks a' = watermarks a
   \/ (watermarks a' = (uv, rv, dv)
       /\ (usersTableVersion a < usersTableVersion a'
           \/ roleOptionsTableVersion a < roleOptionsTableVersion a'
           \/ dbRoleSettingsTableVersion a < dbRoleSettingsTableVersion a')%N)).
Proof.
  intros a'. subst a'.
  destruct (clearCacheIfStale_cases uv rv dv a) as [[-> _]|[-> Hlt]]; [left; reflexivity|].
  right. simpl. split; [reflexivity | exact Hlt].
Qed.

Lemma readAuthInfoFromCache_state uv rv u a :
  snd (readAuthInfoFromCache uv rv u a)
  = snd (clearCacheIfStale uv rv (dbRoleSettingsTableVersion a) a).
Proof.
  unfold readAuthInfoFromCache.
  destruct (clearCacheIfStale _ _ _ _) as [ok a1]. simpl.
  destruct ok; simpl; [destruct (mapGet _ _)|]; reflexivity.
Qed.

Lemma readDefaultSettingsFromCache_state dv u db a :
  snd (readDefaultSettingsFromCache dv u db a)
  = snd (clearCacheIfStale (usersTableVersion a) (roleOptionsTableVersion a) dv a).
Proof.
  unfold readDefaultSettingsFromCache.
  destruct (clearCacheIfStale _ _ _ _) as [ok a1]. simpl.
  destruct ok; reflexivity.
Qed.

(** C2 (as amended): in every step of the five operations either all three
    watermarks stay as they are or at least one of them strictly increases;
    only in such an increasing step, which is the clearing branch of
    clearCacheIfStale, can another watermark be set to a smaller caller
    value. The write-backs never change a watermark,
    readDefaultSettingsFromCache never lowers one, readAuthInfoFromCache
    never changes the settings watermark, and a watermark whose caller
    version is not below it is never lowered. *)
Theorem watermarks_step (op : Op) (w w' : World) :
  runOp op w = Ok tt w' ->
  let a := cache w in
  let a' := cache w' in
  (watermarks a' = watermarks a
   \/ (usersTableVersion a < usersTableVersion a'
       \/ roleOptionsTableVersion a < roleOptionsTableVersion a'
       \/ dbRoleSettingsTableVersion a < dbRoleSettingsTableVersion a')%N)
  /\ match op with
     | OpWriteAuthInfo _ _ _ _ | OpWriteDefaultSettings _ _ =>
         watermarks a' = watermarks a
     | OpReadDefaultSettings dv _ _ =>
         usersTableVersion a' = usersTableVersion a
         /\ roleOptionsTableVersion a' = roleOptionsTableVersion a
         /\ (dbRoleSettingsTableVersion a <= dbRoleSettingsTableVersion a')%N
     | OpReadAuthInfo uv rv _ =>
         dbRoleSettingsTableVersion a' = dbRoleSettingsTableVersion a
         /\ ((usersTableVersion a <= uv)%N ->
             (usersTableVersion a <= usersTableVersion a')%N)
         /\ ((roleOptionsTableVersion a <= rv)%N ->
             (roleOptionsTableVersion a <= roleOptionsTableVersion a')%N)
     | OpClearCacheIfStale uv rv dv =>
         ((usersTableVersion a <= uv)%N ->
          (usersTableVersion a <= usersTableVersion a')%N)
         /\ ((roleOptionsTableVersion a <= rv)%N ->
             (roleOptionsTableVersion a <= roleOptionsTableVersion a')%N)
         /\ ((dbRoleSettingsTableVersion a <= dv)%N ->
             (dbRoleSettingsTableVersion a <= dbRoleSettingsTableVersion a')%N)
     end.
Proof.
  intros Hrun a a'. subst a a'. destruct op; simpl in Hrun.
  - (* readAuthInfoFromCache *)
    unfold mbind, M_bind, mret, M_ret in Hrun. rewrite locked_run in Hrun.
    injection Hrun as <-. simpl. rewrite readAuthInfoFromCache_state.
    destruct (clearCacheIfStale_cases usersV roleOptionsV
                (dbRoleSettingsTableVersion (cache w)) (cache w)) as [[-> _]|[-> Hlt]]; simpl.
    + split; [left; reflexivity|]. repeat split; intros; lia.
    + split; [right; exact Hlt|]. repeat split; intros; lia.
  - (* readDefaultSettingsFromCache *)
    unfold mbind, M_bind, mret, M_ret in Hrun. rewrite locked_run in Hrun.
    injection Hrun as <-. simpl. rewrite readDefaultSettingsFromCache_state.
    destruct (clearCacheIfStale_cases (usersTableVersion (cache w))
                (roleOptionsTableVersion (cache w)) dbRoleSettingsV (cache w))
      as [[-> _]|[-> Hlt]]; simpl.
    + split; [left; reflexivity|]. repeat split; lia.
    + split; [right; exact Hlt|]. repeat split; lia.
  - (* maybeWriteAuthInfoBackToCache *)
    unfold mbind, M_bind, mret, M_ret in Hrun.
    destruct (maybeWriteAuthInfoBackToCache _ _ _ _ w) as [r w1|] eqn:Hw; [|discriminate].
    injection Hrun as <-.
    apply maybeWriteAuthInfoBackToCache_watermarks in Hw. auto.
  - (* maybeWriteDefaultSettingsBackToCache *)
    unfold mbind, M_bind, mret, M_ret in Hrun.
    destruct (maybeWriteDefaultSettingsBackToCache _ _ w) as [r w1|] eqn:Hw; [|discriminate].
    injection Hrun as <-.
    apply maybeWriteDefaultSettingsBackToCache_watermarks in Hw. auto.
  - (* clearCacheIfStale *)
    unfold mbind, M_bind, mret, M_ret in Hrun. rewrite locked_run in Hrun.
    injection Hrun as <-. simpl.
    destruct (clearCacheIfStale_cases usersV roleOptionsV dbRoleSettingsV (cache w))
      as [[-> _]|[-> Hlt]]; simpl.
    + split; [left; reflexivity|]. repeat split; intros; lia.
    + split; [right; exact Hlt|]. repeat split; intros; lia.
Qed.

Lemma watermarks_step_witness :
  let w := {| cache := NewCache {| used := 0; budget := 4096 |}; opsLog := [] |} in
  let w' := {| cache := snd (clearCacheIfStale 5 3 1 (cache w)); opsLog := [] |} in
  watermarks (cache w') = watermarks (cache w)
  \/ (usersTableVersion (cache w) < usersTableVersion (cache w')
      \/ roleOptionsTableVersion (cache w) < roleOptionsTableVersion (cache w')
      \/ dbRoleSettingsTableVersion (cache w) < dbRoleSettingsTableVersion (cache w'))%N.
Proof.
  intros w w'.
  apply (watermarks_step (OpClearCacheIfStale 5 3 1) w w').
  vm_compute. reflexivity.
Defined.

(** C2 (counterexample): from a fresh cache, a read at versions (5, 3)
    followed by a read at versions (4, 4) lowers the users watermark from 5
    to 4. *)
Lemma watermark_lowered_by_read :
  let account := {| used := 0; budget := 4096 |} in
  let u := MakeSQLUsername "alice" in
  let w0 := {| cache := NewCache account; opsLog := [] |} in
  let w1 := {| cache := snd (readAuthInfoFromCache 5 3 u (cache w0)); opsLog := [] |} in
  let w2 := {| cache := snd (readAuthInfoFromCache 4 4 u (cache w1)); opsLog := [] |} in
  reachable account w1
  /\ runOp (OpReadAuthInfo 4 4 u) w1 = Ok tt w2
  /\ usersTableVersion (cache w1) = 5%N
  /\ usersTableVersion (cache w2) = 4%N
  /\ (usersTableVersion (cache w2) < usersTableVersion (cache w1))%N.
Proof.
  intros account u w0 w1 w2. split.
  - apply (reachable_step account w0 (OpReadAuthInfo 5 3 u) w1); [constructor|].
    vm_compute. reflexivity.
  - vm_compute. repeat split; reflexivity.
Qed.

(** ** The miss path of the two public operations *)

Lemma readAuthInfoFromCache_miss_zero uv rv u a :
  snd (fst (readAuthInfoFromCache uv rv u a)) = false ->
  fst (fst (readAuthInfoFromCache uv rv u a)) = AuthInfo_zero.
Proof.
  unfold readAuthInfoFromCache.
  destruct (clearCacheIfStale _ _ _ _) as [ok a1].
  destruct ok; simpl; [destruct (mapGet _ _); simpl; [discriminate|]|]; reflexivity.
Qed.

(** After a miss, GetAuthInfo waits outside the mutex, takes what the
    coalescing group delivers and attempts the write-back. *)
Lemma GetAuthInfo_miss env u r w usersDesc roleDesc :
  CacheEnabled env = true ->
  GetImmutableTableByName env UsersTableName = inl usersDesc ->
  GetImmutableTableByName env RoleOptionsTableName = inl roleDesc ->
  IsUncommittedVersion usersDesc = false ->
  IsUncommittedVersion roleDesc = false ->
  snd (fst (readAuthInfoFromCache (GetVersion usersDesc) (GetVersion roleDesc) u (cache w)))
    = false ->
  GetAuthInfo env u r w =
    let w1 := {| cache := interference env
                   (snd (readAuthInfoFromCache (GetVersion usersDesc) (GetVersion roleDesc)
                           u (cache w)));
                 opsLog := opsLog w |} in
    match loadCacheValue (selectEvent env) with
    | (_, Some err) => Ok (AuthInfo_zero, Some err) w1
    | (IAuthInfo fetched, None) =>
        match maybeWriteAuthInfoBackToCache (GetVersion usersDesc) (GetVersion roleDesc)
                fetched u w1 with
        | Ok _ w2 => Ok (fetched, None) w2
        | Panic reason => Panic reason
        end
    | (ISettings _, None) => Panic typeAssertPanic
    end.
Proof.
  intros Hen Hud Hrd Hu Hr Hmiss. unfold GetAuthInfo.
  rewrite Hen, Hud, Hrd, Hu, Hr. simpl.
  unfold mbind at 1, M_bind at 1. rewrite locked_run.
  pose proof (readAuthInfoFromCache_miss_zero _ _ _ _ Hmiss) as Hzero.
  destruct (readAuthInfoFromCache _ _ u (cache w)) as [[ai found] a1].
  simpl in Hmiss, Hzero. subst found ai. simpl.
  unfold mbind, M_bind, unlockedWait. simpl.
  destruct (loadCacheValue (selectEvent env)) as [[fetched|es] [err|]]; try reflexivity.
Qed.

(** The same for GetDefaultSettings; here the entries collected before the
    first absent key stay in the result variable when the load fails. *)
Lemma GetDefaultSettings_miss env u dbName r w desc databaseID :
  CacheEnabled env = true ->
  GetImmutableTableByName env DatabaseRoleSettingsTableName = inl desc ->
  resolveDatabaseID env dbName = inl databaseID ->
  IsUncommittedVersion desc = false ->
  snd (fst (readDefaultSettingsFromCache (GetVersion desc) u databaseID (cache w))) = false ->
  GetDefaultSettings env u dbName r w =
    let w1 := {| cache := interference env
                   (snd (readDefaultSettingsFromCache (GetVersion desc) u databaseID (cache w)));
                 opsLog := opsLog w |} in
    match loadCacheValue (selectEvent env) with
    | (_, Some err) =>
        Ok (fst (fst (readDefaultSettingsFromCache (GetVersion desc) u databaseID (cache w))),
            Some err) w1
    | (ISettings fetched, None) =>
        match maybeWriteDefaultSettingsBackToCache (GetVersion desc) fetched w1 with
        | Ok _ w2 => Ok (fetched, None) w2
        | Panic reason => Panic reason
        end
    | (IAuthInfo _, None) => Panic typeAssertPanic
    end.
Proof.
  intros Hen Hd Hdb Hu Hmiss. unfold GetDefaultSettings.
  rewrite Hen, Hd, Hdb, Hu. simpl.
  unfold mbind at 1, M_bind at 1. rewrite locked_run.
  destruct (readDefaultSettingsFromCache _ u databaseID (cache w)) as [[es found] a1].
  simpl in Hmiss. subst found. simpl.
  unfold mbind, M_bind, unlockedWait. simpl.
  destruct (loadCacheValue (selectEvent env)) as [[fetched|fetched] [err|]]; try reflexivity.
Qed.

(** ** The caller behind the cache *)

Lemma clearCacheIfStale_newer uv rv dv a :
  (uv <= usersTableVersion a)%N -> (rv <= roleOptionsTableVersion a)%N ->
  (dv <= dbRoleSettingsTableVersion a)%N ->
  (uv < usersTableVersion a \/ rv < roleOptionsTableVersion a
   \/ dv < dbRoleSettingsTableVersion a)%N ->
  clearCacheIfStale uv rv dv a = (false, a).
Proof.
  intros Hu Hr Hd Hlt. rewrite clearCacheIfStale_not_older by assumption.
  replace ((uv <? usersTableVersion a)%N || (rv <? roleOptionsTableVersion a)%N
           || (dv <? dbRoleSettingsTableVersion a)%N) with true; [reflexivity|].
  symmetry. apply orb3_true. rewrite !N.ltb_lt. exact Hlt.
Qed.

Lemma maybeWriteAuthInfoBackToCache_moved uv rv ai u w :
  usersTableVersion (cache w) <> uv \/ roleOptionsTableVersion (cache w) <> rv ->
  maybeWriteAuthInfoBackToCache uv rv ai u w = Ok false w.
Proof.
  intros Hne. unfold maybeWriteAuthInfoBackToCache. run_monad.
  replace (negb (usersTableVersion (cache w) =? uv)%N
           || negb (roleOptionsTableVersion (cache w) =? rv)%N) with true; [reflexivity|].
  symmetry. apply orb_true_iff. rewrite !negb_true_iff, !N.eqb_neq. exact Hne.
Qed.

Lemma maybeWriteDefaultSettingsBackToCache_moved dv es w :
  dbRoleSettingsTableVersion (cache w) <> dv ->
  maybeWriteDefaultSettingsBackToCache dv es w = Ok false w.
Proof.
  intros Hne. unfold maybeWriteDefaultSettingsBackToCache. run_monad.
  replace (negb (dbRoleSettingsTableVersion (cache w) =? dv)%N) with true; [reflexivity|].
  symmetry. rewrite negb_true_iff, N.eqb_neq. exact Hne.
Qed.

(** C3: when no caller version is above its watermark and at least one is
    below, clearCacheIfStale reports not-eligible and returns the cache as
    it was (watermarks, both mappings and the account), the two reads report
    a miss without looking at the mappings, and a GetAuthInfo call that is
    not interfered with returns what the load delivers and leaves the whole
    state as it was. *)
Theorem caller_behind_bypasses_cache (uv rv dv : DescriptorVersion) (a : Cache) :
  (uv <= usersTableVersion a)%N ->
  (rv <= roleOptionsTableVersion a)%N ->
  (dv <= dbRoleSettingsTableVersion a)%N ->
  (uv < usersTableVersion a \/ rv < roleOptionsTableVersion a
   \/ dv < dbRoleSettingsTableVersion a)%N ->
  clearCacheIfStale uv rv dv a = (false, a)
  /\ (dv = dbRoleSettingsTableVersion a ->
      forall u, readAuthInfoFromCache uv rv u a = ((AuthInfo_zero, false), a))
  /\ (uv = usersTableVersion a -> rv = roleOptionsTableVersion a ->
      forall u db, readDefaultSettingsFromCache dv u db a = (([], false), a))
  /\ (dv = dbRoleSettingsTableVersion a ->
      forall env u r log fetched,
        CacheEnabled env = true ->
        GetImmutableTableByName env UsersTableName
          = inl {| GetVersion := uv; IsUncommittedVersion := false |} ->
        GetImmutableTableByName env RoleOptionsTableName
          = inl {| GetVersion := rv; IsUncommittedVersion := false |} ->
        selectEvent env = Received {| Val := IAuthInfo fetched; Err := None |} ->
        (forall c, interference env c = c) ->
        GetAuthInfo env u r {| cache := a; opsLog := log |}
          = Ok (fetched, None) {| cache := a; opsLog := log |}).
Proof.
  intros Hu Hr Hd Hlt.
  pose proof (clearCacheIfStale_newer uv rv dv a Hu Hr Hd Hlt) as Hclear.
  split; [exact Hclear|].
  assert (Hread : dv = dbRoleSettingsTableVersion a ->
                  forall u, readAuthInfoFromCache uv rv u a = ((AuthInfo_zero, false), a)).
  { intros -> u. unfold readAuthInfoFromCache. rewrite Hclear. reflexivity. }
  split; [exact Hread|]. split.
  - intros -> -> u db. unfold readDefaultSettingsFromCache. rewrite Hclear. reflexivity.
  - intros Hdv env u r log fetched Hen Hud Hrd Hsel Hid.
    rewrite (GetAuthInfo_miss env u r _ _ _ Hen Hud Hrd eq_refl eq_refl);
      simpl; rewrite (Hread Hdv); [|reflexivity].
    rewrite Hsel, Hid. simpl.
    rewrite maybeWriteAuthInfoBackToCache_moved; [reflexivity|].
    simpl. subst dv. lia.
Qed.

Lemma caller_behind_bypasses_cache_witness :
  let a := snd (clearCacheIfStale 5 3 1 (NewCache {| used := 0; budget := 4096 |})) in
  clearCacheIfStale 5 2 1 a = (false, a).
Proof.
  intros a.
  apply (caller_behind_bypasses_cache 5 2 1 a); vm_compute; try discriminate.
  right; left; reflexivity.
Defined.

(** ** Write-back after the watermark has moved *)

(** C4: a write-back whose versions no longer equal the stored watermarks
    returns false and leaves the whole state (both mappings, the account,
    the log) as it was, for AuthInfo and for default settings alike; the
    public operation that attempted it still returns the fetched value with
    no error. *)
Theorem writeback_discarded_when_watermark_moved :
  (forall uv rv ai u w,
     usersTableVersion (cache w) <> uv \/ roleOptionsTableVersion (cache w) <> rv ->
     maybeWriteAuthInfoBackToCache uv rv ai u w = Ok false w)
  /\ (forall dv es w,
        dbRoleSettingsTableVersion (cache w) <> dv ->
        maybeWriteDefaultSettingsBackToCache dv es w = Ok false w)
  /\ (forall env u r w usersDesc roleDesc fetched,
        CacheEnabled env = true ->
        GetImmutableTableByName env UsersTableName = inl usersDesc ->
        GetImmutableTableByName env RoleOptionsTableName = inl roleDesc ->
        IsUncommittedVersion usersDesc = false ->
        IsUncommittedVersion roleDesc = false ->
        snd (fst (readAuthInfoFromCache (GetVersion usersDesc) (GetVersion roleDesc)
                    u (cache w))) = false ->
        selectEvent env = Received {| Val := IAuthInfo fetched; Err := None |} ->
        let atWriteBack :=
          interference env
            (snd (readAuthInfoFromCache (GetVersion usersDesc) (GetVersion roleDesc)
                    u (cache w))) in
        usersTableVersion atWriteBack <> GetVersion usersDesc
        \/ roleOptionsTableVersion atWriteBack <> GetVersion roleDesc ->
        GetAuthInfo env u r w
          = Ok (fetched, None) {| cache := atWriteBack; opsLog := opsLog w |})
  /\ (forall env u dbName r w desc databaseID fetched,
        CacheEnabled env = true ->
        GetImmutableTableByName env DatabaseRoleSettingsTableName = inl desc ->
        resolveDatabaseID env dbName = inl databaseID ->
        IsUncommittedVersion desc = false ->
        snd (fst (readDefaultSettingsFromCache (GetVersion desc) u databaseID (cache w)))
          = false ->
        selectEvent env = Received {| Val := ISettings fetched; Err := None |} ->
        let atWriteBack :=
          interference env
            (snd (readDefaultSettingsFromCache (GetVersion desc) u databaseID (cache w))) in
        dbRoleSettingsTableVersion atWriteBack <> GetVersion desc ->
        GetDefaultSettings env u dbName r w
          = Ok (fetched, None) {| cache := atWriteBack; opsLog := opsLog w |}).
Proof.
  split; [exact maybeWriteAuthInfoBackToCache_moved|].
  split; [exact maybeWriteDefaultSettingsBackToCache_moved|]. split.
  - intros env u r w usersDesc roleDesc fetched Hen Hud Hrd Hu Hr Hmiss Hsel atWriteBack Hne.
    rewrite (GetAuthInfo_miss env u r w usersDesc roleDesc) by assumption.
    rewrite Hsel. simpl.
    rewrite maybeWriteAuthInfoBackToCache_moved by exact Hne. reflexivity.
  - intros env u dbName r w desc databaseID fetched Hen Hd Hdb Hu Hmiss Hsel atWriteBack Hne.
    rewrite (GetDefaultSettings_miss env u dbName r w desc databaseID) by assumption.
    rewrite Hsel. simpl.
    rewrite maybeWriteDefaultSettingsBackToCache_moved by exact Hne. reflexivity.
Qed.

(** ** Write-back without memory *)

Lemma maybeWriteAuthInfoBackToCache_no_memory uv rv ai u w e :
  usersTableVersion (cache w) = uv -> roleOptionsTableVersion (cache w) = rv ->
  snd (Grow (boundAccount (cache w)) (sizeOfEntry ai u)) = Some e ->
  maybeWriteAuthInfoBackToCache uv rv ai u w
    = Ok true {| cache := cache w; opsLog := opsLog w ++ [OpsWarningf noMemoryFormat e] |}.
Proof.
  intros <- <- Hgrow. unfold maybeWriteAuthInfoBackToCache. run_monad.
  rewrite !N.eqb_refl. simpl.
  pose proof (Grow_failure _ _ _ Hgrow) as Hsame.
  destruct (Grow _ _) as [acct err]. simpl in *. subst acct err.
  rewrite setBoundAccount_same. reflexivity.
Qed.

Lemma maybeWriteDefaultSettingsBackToCache_no_memory dv es w e :
  dbRoleSettingsTableVersion (cache w) = dv ->
  snd (Grow (boundAccount (cache w)) (sizeOfSettings (settingsCache (cache w)) es)) = Some e ->
  maybeWriteDefaultSettingsBackToCache dv es w
    = Ok true {| cache := cache w; opsLog := opsLog w ++ [OpsWarningf noMemoryFormat e] |}.
Proof.
  intros <- Hgrow. unfold maybeWriteDefaultSettingsBackToCache. run_monad.
  rewrite !N.eqb_refl. simpl.
  pose proof (Grow_failure _ _ _ Hgrow) as Hsame.
  destruct (Grow _ _) as [acct err]. simpl in *. subst acct err.
  rewrite setBoundAccount_same. reflexivity.
Qed.

(** C5: when Grow fails in a write-back, nothing is inserted (the cache is
    exactly as before), one warning is logged, and the public operation
    returns the fetched value with no error. *)
Theorem no_memory_never_fails_login :
  (forall uv rv ai u w e,
     usersTableVersion (cache w) = uv -> roleOptionsTableVersion (cache w) = rv ->
     snd (Grow (boundAccount (cache w)) (sizeOfEntry ai u)) = Some e ->
     maybeWriteAuthInfoBackToCache uv rv ai u w
       = Ok true {| cache := cache w;
                    opsLog := opsLog w ++ [OpsWarningf noMemoryFormat e] |})
  /\ (forall dv es w e,
        dbRoleSettingsTableVersion (cache w) = dv ->
        snd (Grow (boundAccount (cache w)) (sizeOfSettings (settingsCache (cache w)) es))
          = Some e ->
        maybeWriteDefaultSettingsBackToCache dv es w
          = Ok true {| cache := cache w;
                       opsLog := opsLog w ++ [OpsWarningf noMemoryFormat e] |})
  /\ (forall env u r w usersDesc roleDesc fetched e,
        CacheEnabled env = true ->
        GetImmutableTableByName env UsersTableName = inl usersDesc ->
        GetImmutableTableByName env RoleOptionsTableName = inl roleDesc ->
        IsUncommittedVersion usersDesc = false ->
        IsUncommittedVersion roleDesc = false ->
        snd (fst (readAuthInfoFromCache (GetVersion usersDesc) (GetVersion roleDesc)
                    u (cache w))) = false ->
        selectEvent env = Received {| Val := IAuthInfo fetched; Err := None |} ->
        let atWriteBack :=
          interference env
            (snd (readAuthInfoFromCache (GetVersion usersDesc) (GetVersion roleDesc)
                    u (cache w))) in
        usersTableVersion atWriteBack = GetVersion usersDesc ->
        roleOptionsTableVersion atWriteBack = GetVersion roleDesc ->
        snd (Grow (boundAccount atWriteBack) (sizeOfEntry fetched u)) = Some e ->
        GetAuthInfo env u r w
          = Ok (fetched, None)
               {| cache := atWriteBack;
                  opsLog := opsLog w ++ [OpsWarningf noMemoryFormat e] |})
  /\ (forall env u dbName r w desc databaseID fetched e,
        CacheEnabled env = true ->
        GetImmutableTableByName env DatabaseRoleSettingsTableName = inl desc ->
        resolveDatabaseID env dbName = inl databaseID ->
        IsUncommittedVersion desc = false ->
        snd (fst (readDefaultSettingsFromCache (GetVersion desc) u databaseID (cache w)))
          = false ->
        selectEvent env = Received {| Val := ISettings fetched; Err := None |} ->
        let atWriteBack :=
          interference env
            (snd (readDefaultSettingsFromCache (GetVersion desc) u databaseID (cache w))) in
        dbRoleSettingsTableVersion atWriteBack = GetVersion desc ->
        snd (Grow (boundAccount atWriteBack)
               (sizeOfSettings (settingsCache atWriteBack) fetched)) = Some e ->
        GetDefaultSettings env u dbName r w
          = Ok (fetched, None)
               {| cache := atWriteBack;
                  opsLog := opsLog w ++ [OpsWarningf noMemoryFormat e] |}).
Proof.
  split; [exact maybeWriteAuthInfoBackToCache_no_memory|].
  split; [exact maybeWriteDefaultSettingsBackToCache_no_memory|]. split.
  - intros env u r w usersDesc roleDesc fetched e Hen Hud Hrd Hu Hr Hmiss Hsel
           atWriteBack Hv1 Hv2 Hgrow.
    rewrite (GetAuthInfo_miss env u r w usersDesc roleDesc) by assumption.
    rewrite Hsel. simpl.
    rewrite (maybeWriteAuthInfoBackToCache_no_memory _ _ _ _ _ e) by assumption.
    reflexivity.
  - intros env u dbName r w desc databaseID fetched e Hen Hd Hdb Hu Hmiss Hsel
           atWriteBack Hv Hgrow.
    rewrite (GetDefaultSettings_miss env u dbName r w desc databaseID) by assumption.
    rewrite Hsel. simpl.
    rewrite (maybeWriteDefaultSettingsBackToCache_no_memory _ _ _ e) by assumption.
    reflexivity.
Qed.

(** ** The all-or-nothing settings lookup *)

(** What the search loop returns with a hit: one entry per key, in the
    order of the keys, each carrying what the cache holds under its key. *)
Lemma lookupSettings_hit m keys acc es :
  lookupSettings m keys acc = (es, true) ->
  exists found,
    es = acc ++ found
    /\ Forall2 (fun k e => entryKey e = k /\ mapGet m k = Some (Settings e)) keys found.
Proof.
  revert acc es. induction keys as [|k rest IH]; intros acc es Hrun; simpl in Hrun.
  - injection Hrun as <-. exists []. split; [by rewrite app_nil_r | constructor].
  - destruct (mapGet m k) as [s|] eqn:Hk; [|discriminate].
    destruct (IH _ _ Hrun) as (found & -> & Hall).
    exists ({| entryKey := k; Settings := s |} :: found). split.
    + by rewrite <- app_assoc.
    + constructor; [split; [reflexivity | exact Hk] | exact Hall].
Qed.

Lemma lookupSettings_absent m keys acc k :
  k ∈ keys -> mapGet m k = None -> snd (lookupSettings m keys acc) = false.
Proof.
  revert acc. induction keys as [|k' rest IH]; intros acc Hin Hk; [by inversion Hin|].
  simpl. destruct (mapGet m k') as [s|] eqn:Hk'; [|reflexivity].
  apply IH; [|exact Hk]. inversion Hin; subst; [congruence | assumption].
Qed.

Lemma lookupSettings_all_present m keys acc :
  (forall k, k ∈ keys -> is_Some (mapGet m k)) ->
  snd (lookupSettings m keys acc) = true.
Proof.
  revert acc. induction keys as [|k rest IH]; intros acc Hall; [reflexivity|].
  simpl. destruct (Hall k) as [s ->]; [left|].
  apply IH. intros k' Hk'. apply Hall. by right.
Qed.

Lemma readDefaultSettingsFromCache_hit dv u db a es a' :
  readDefaultSettingsFromCache dv u db a = ((es, true), a') ->
  a' = a
  /\ Forall2 (fun k e => entryKey e = k /\ mapGet (settingsCache a) k = Some (Settings e))
       (GenerateSettingsCacheKeys db u) es.
Proof.
  unfold readDefaultSettingsFromCache.
  destruct (clearCacheIfStale_cases (usersTableVersion a) (roleOptionsTableVersion a) dv a)
    as [[Hsame _]|[-> _]].
  - destruct (clearCacheIfStale _ _ _ _) as [ok a1]. cbn [snd] in Hsame. subst a1.
    destruct ok; cbn [negb]; [|discriminate].
    destruct (lookupSettings _ _ _) as [es' found] eqn:Hl.
    intros [= -> -> <-]. split; [reflexivity|].
    destruct (lookupSettings_hit _ _ _ _ Hl) as (found & -> & Hall). exact Hall.
  - cbn [negb]. discriminate.
Qed.

Lemma readDefaultSettingsFromCache_absent dv u db a k :
  k ∈ GenerateSettingsCacheKeys db u ->
  mapGet (settingsCache a) k = None ->
  snd (fst (readDefaultSettingsFromCache dv u db a)) = false.
Proof.
  intros Hin Hk. unfold readDefaultSettingsFromCache.
  destruct (clearCacheIfStale_cases (usersTableVersion a) (roleOptionsTableVersion a) dv a)
    as [[Hsame _]|[-> _]].
  - destruct (clearCacheIfStale _ _ _ _) as [ok a1]. cbn [snd] in Hsame. subst a1.
    destruct ok; cbn [negb]; [|reflexivity].
    pose proof (lookupSettings_absent (settingsCache a) _ [] k Hin Hk) as Hl.
    destruct (lookupSettings _ _ _); exact Hl.
  - reflexivity.
Qed.

(** C6: readDefaultSettingsFromCache reports a hit only when each of the
    four precedence keys is in the settings cache, and then returns exactly
    the four cached entries in key order; if any of the four keys is absent
    it reports a miss. GetDefaultSettings then goes through the coalesced
    load: whatever it returns without an error is the complete list that the
    load delivered, never the entries found before the absent key. *)
Theorem settings_lookup_all_or_nothing (dv : DescriptorVersion) (u : SQLUsername)
    (db : ID) (a : Cache) :
  (forall es a',
     readDefaultSettingsFromCache dv u db a = ((es, true), a') ->
     a' = a
     /\ length es = 4%nat
     /\ Forall2 (fun k e => entryKey e = k /\ mapGet (settingsCache a) k = Some (Settings e))
          (GenerateSettingsCacheKeys db u) es)
  /\ (forall k,
        k ∈ GenerateSettingsCacheKeys db u ->
        mapGet (settingsCache a) k = None ->
        snd (fst (readDefaultSettingsFromCache dv u db a)) = false
        /\ forall env dbName r log desc,
             CacheEnabled env = true ->
             GetImmutableTableByName env DatabaseRoleSettingsTableName = inl desc ->
             GetVersion desc = dv ->
             IsUncommittedVersion desc = false ->
             resolveDatabaseID env dbName = inl db ->
             (forall fetched,
                selectEvent env = Received {| Val := ISettings fetched; Err := None |} ->
                GetDefaultSettings env u dbName r {| cache := a; opsLog := log |}
                = match
                    maybeWriteDefaultSettingsBackToCache dv fetched
                      {| cache := interference env
                                    (snd (readDefaultSettingsFromCache dv u db a));
                         opsLog := log |}
                  with
                  | Ok _ w2 => Ok (fetched, None) w2
                  | Panic reason => Panic reason
                  end)
             /\ (forall res w',
                   GetDefaultSettings env u dbName r {| cache := a; opsLog := log |}
                     = Ok (res, None) w' ->
                   selectEvent env = Received {| Val := ISettings res; Err := None |})).
Proof.
  split.
  - intros es a' Hrun.
    destruct (readDefaultSettingsFromCache_hit _ _ _ _ _ _ Hrun) as [-> Hall].
    split; [reflexivity|]. split; [|exact Hall].
    apply Forall2_length in Hall. simpl in Hall. congruence.
  - intros k Hin Hk.
    pose proof (readDefaultSettingsFromCache_absent dv u db a k Hin Hk) as Hmiss.
    split; [exact Hmiss|].
    intros env dbName r log desc Hen Hd <- Hu Hdb.
    rewrite (GetDefaultSettings_miss env u dbName r _ desc db) by assumption.
    split.
    + intros fetched Hsel. rewrite Hsel. reflexivity.
    + intros res w'. destruct (selectEvent env) as [[val [e|]]|e]; simpl;
        try discriminate.
      destruct val as [ai|fetched]; [discriminate|].
      destruct (maybeWriteDefaultSettingsBackToCache _ _ _) as [b w2|]; [|discriminate].
      intros [= -> _]. reflexivity.
Qed.

(** C7: GenerateSettingsCacheKeys returns exactly four keys, in descending
    order of precedence: (db, user), (default db, user), (db, default
    user), (default db, default user); for database 7 and user bob these
    are (7, bob), (0, bob), (7, empty name), (0, empty name). *)
Theorem GenerateSettingsCacheKeys_four :
  (forall (databaseID : ID) (username : SQLUsername),
     GenerateSettingsCacheKeys databaseID username
     = [ {| DatabaseID := databaseID; Username := username |};
         {| DatabaseID := defaultDatabaseID; Username := username |};
         {| DatabaseID := databaseID; Username := defaultUsername |};
         {| DatabaseID := defaultDatabaseID; Username := defaultUsername |} ]
     /\ length (GenerateSettingsCacheKeys databaseID username) = 4%nat)
  /\ GenerateSettingsCacheKeys 7 (MakeSQLUsername "bob")
     = [ {| DatabaseID := 7; Username := MakeSQLUsername "bob" |};
         {| DatabaseID := 0; Username := MakeSQLUsername "bob" |};
         {| DatabaseID := 7; Username := MakeSQLUsername "" |};
         {| DatabaseID := 0; Username := MakeSQLUsername "" |} ].
Proof. split; [intros; split|]; reflexivity. Qed.

(** ** Charging the memory account for settings *)

Lemma wrap64_add_l a b : wrap64 (wrap64 a + b) = wrap64 (a + b).
Proof.
  unfold wrap64. f_equal.
  replace ((a + 2 ^ 63) mod 2 ^ 64 - 2 ^ 63 + b + 2 ^ 63)
    with ((a + 2 ^ 63) mod 2 ^ 64 + b) by ring.
  rewrite Zplus_mod_idemp_l. f_equal. ring.
Qed.

Lemma wrap64_small z : - 2 ^ 63 <= z < 2 ^ 63 -> wrap64 z = z.
Proof.
  intros Hz. unfold wrap64.
  change (2 ^ 63) with 9223372036854775808 in *.
  change (2 ^ 64) with 18446744073709551616.
  rewrite Z.mod_small; lia.
Qed.

Lemma intAdd_wrap t x : intAdd (wrap64 t) x = wrap64 (t + x).
Proof. unfold intAdd. apply wrap64_add_l. Qed.

Lemma settings_fold_wrap (l : list string) t :
  fold_left (fun acc s => intAdd acc (len s)) l (wrap64 t)
  = wrap64 (t + foldr (fun s total => len s + total) 0 l).
Proof.
  revert t. induction l as [|s l IH]; intros t; simpl.
  - f_equal. ring.
  - rewrite intAdd_wrap, IH. f_equal. ring.
Qed.

Lemma sizeOfSettings_fold_wrap m es t :
  fold_left
    (fun acc sEntry =>
       match mapGet m (entryKey sEntry) with
       | Some _ => acc
       | None =>
           fold_left (fun acc' s => intAdd acc' (len s)) (Settings sEntry)
             (intAdd (intAdd acc sizeOfSettingsCacheEntry)
                     (len (Normalized (Username (entryKey sEntry)))))
       end)
    es (wrap64 t)
  = wrap64 (t + totalCharge m es).
Proof.
  unfold totalCharge. revert t. induction es as [|e es IH]; intros t; simpl.
  - f_equal. ring.
  - unfold isAbsent at 1. destruct (mapGet m (entryKey e)) as [old|]; simpl.
    + apply IH.
    + rewrite !intAdd_wrap, settings_fold_wrap, IH. unfold entryCharge. f_equal. ring.
Qed.

Lemma sizeOfSettings_charge m es : sizeOfSettings m es = wrap64 (totalCharge m es).
Proof.
  unfold sizeOfSettings. change 0 with (wrap64 0) at 1.
  rewrite sizeOfSettings_fold_wrap. reflexivity.
Qed.

Lemma totalCharge_all_present m es :
  (forall e, e ∈ es -> is_Some (mapGet m (entryKey e))) -> totalCharge m es = 0.
Proof.
  unfold totalCharge. induction es as [|e es IH]; intros Hall; [reflexivity|].
  simpl. unfold isAbsent at 1. destruct (Hall e) as [old ->]; [left|].
  apply IH. intros e' He'. apply Hall. by right.
Qed.

Lemma totalCharge_nonneg m es : 0 <= totalCharge m es.
Proof.
  unfold totalCharge. induction (List.filter (isAbsent m) es) as [|e l IH]; simpl; [lia|].
  assert (0 <= entryCharge e); [|lia].
  unfold entryCharge, sizeOfSettingsCacheEntry, len.
  assert (0 <= foldr (fun s total => Z.of_nat (String.length s) + total) 0 (Settings e)).
  { induction (Settings e) as [|s ss IHs]; simpl; lia. }
  lia.
Qed.

(** The storing loop keeps what was there and leaves every written key
    present. *)
Lemma storeSettings_present m es m' :
  storeSettings m es = Some m' ->
  (forall k, is_Some (mapGet m k) -> is_Some (mapGet m' k))
  /\ (forall e, e ∈ es -> is_Some (mapGet m' (entryKey e))).
Proof.
  revert m. induction es as [|e es IH]; intros m Hrun; simpl in Hrun.
  - injection Hrun as <-. split; [auto|]. intros e He. inversion He.
  - destruct (mapGet m (entryKey e)) as [old|] eqn:Hk.
    + destruct (IH _ Hrun) as [Hkeep Hnew]. split; [exact Hkeep|].
      intros e' He'. inversion He'; subst; [|auto].
      apply Hkeep. rewrite Hk. eauto.
    + destruct m as [g|]; [|discriminate]. simpl in Hrun.
      destruct (IH _ Hrun) as [Hkeep Hnew]. split.
      * intros k [v Hv]. apply Hkeep. unfold mapGet in *.
        destruct (decide (entryKey e = k)) as [Heq|Hne].
        -- rewrite <- Heq in Hv. congruence.
        -- rewrite lookup_insert_ne by exact Hne. eauto.
      * intros e' He'. inversion He'; subst; [|auto].
        apply Hkeep. unfold mapGet. rewrite lookup_insert_eq. eauto.
Qed.

Lemma storeSettings_all_present m es :
  (forall e, e ∈ es -> is_Some (mapGet m (entryKey e))) -> storeSettings m es = Some m.
Proof.
  induction es as [|e es IH]; intros Hall; [reflexivity|].
  simpl. destruct (Hall e) as [old ->]; [left|].
  apply IH. intros e' He'. apply Hall. by right.
Qed.

Lemma maybeWriteDefaultSettingsBackToCache_granted dv es w r w' :
  dbRoleSettingsTableVersion (cache w) = dv ->
  snd (Grow (boundAccount (cache w)) (sizeOfSettings (settingsCache (cache w)) es)) = None ->
  maybeWriteDefaultSettingsBackToCache dv es w = Ok r w' ->
  storeSettings (settingsCache (cache w)) es = Some (settingsCache (cache w'))
  /\ used (boundAccount (cache w'))
     = used (boundAccount (cache w)) + sizeOfSettings (settingsCache (cache w)) es.
Proof.
  intros <- Hgrow. unfold maybeWriteDefaultSettingsBackToCache. run_monad.
  rewrite N.eqb_refl. simpl.
  pose proof (Grow_success _ _ Hgrow) as Hacct.
  destruct (Grow _ _) as [acct err]. simpl in *. subst acct err.
  destruct (storeSettings _ _) as [m|]; [|discriminate].
  intros [= _ <-]. simpl. split; reflexivity.
Qed.

Lemma maybeWriteDefaultSettingsBackToCache_all_present dv es w :
  dbRoleSettingsTableVersion (cache w) = dv ->
  (forall e, e ∈ es -> is_Some (mapGet (settingsCache (cache w)) (entryKey e))) ->
  exists log',
    maybeWriteDefaultSettingsBackToCache dv es w = Ok true {| cache := cache w; opsLog := log' |}.
Proof.
  intros <- Hall. unfold maybeWriteDefaultSettingsBackToCache. run_monad.
  rewrite N.eqb_refl. simpl.
  rewrite sizeOfSettings_charge, totalCharge_all_present by exact Hall.
  change (wrap64 0) with 0.
  rewrite (storeSettings_all_present _ _ Hall).
  unfold Grow. rewrite Z.add_0_r.
  destruct (_ <=? _).
  - eexists. f_equal. f_equal. destruct (cache w) as [? ? ? [? ?] ? ?]; reflexivity.
  - eexists. rewrite setBoundAccount_same. reflexivity.
Qed.

(** C9: the byte count maybeWriteDefaultSettingsBackToCache requests is the
    (64-bit) sum of the charges of exactly those entries whose key is not yet
    in the settings cache; it is that sum itself as long as the sum fits an
    int, and a granted write-back raises the account's usage by it. When
    every key is already cached the request is zero bytes and the write-back
    leaves the cache, its account included, as it was; so writing the same
    entries again after a granted write-back requests nothing. *)
Theorem settings_charge_only_absent_keys
    (m : option (gmap SettingsCacheKey (list string))) (es : list SettingsCacheEntry) :
  sizeOfSettings m es = wrap64 (totalCharge m es)
  /\ (totalCharge m es < 2 ^ 63 -> sizeOfSettings m es = totalCharge m es)
  /\ ((forall e, e ∈ es -> is_Some (mapGet m (entryKey e))) -> sizeOfSettings m es = 0)
  /\ (forall dv w,
        settingsCache (cache w) = m ->
        dbRoleSettingsTableVersion (cache w) = dv ->
        (forall r w',
           snd (Grow (boundAccount (cache w)) (sizeOfSettings m es)) = None ->
           maybeWriteDefaultSettingsBackToCache dv es w = Ok r w' ->
           used (boundAccount (cache w'))
             = used (boundAccount (cache w)) + wrap64 (totalCharge m es)
           /\ sizeOfSettings (settingsCache (cache w')) es = 0)
        /\ ((forall e, e ∈ es -> is_Some (mapGet m (entryKey e))) ->
            exists log',
              maybeWriteDefaultSettingsBackToCache dv es w
              = Ok true {| cache := cache w; opsLog := log' |})).
Proof.
  split; [apply sizeOfSettings_charge|]. split.
  { intros Hfit. rewrite sizeOfSettings_charge. apply wrap64_small.
    pose proof (totalCharge_nonneg m es).
    change (2 ^ 63) with 9223372036854775808 in *. lia. }
  split.
  { intros Hall. rewrite sizeOfSettings_charge, totalCharge_all_present by exact Hall.
    reflexivity. }
  intros dv w <- Hdv. split.
  - intros r w' Hgrow Hrun.
    destruct (maybeWriteDefaultSettingsBackToCache_granted _ _ _ _ _ Hdv Hgrow Hrun)
      as [Hstore Hused].
    split; [rewrite Hused, sizeOfSettings_charge; reflexivity|].
    rewrite sizeOfSettings_charge, totalCharge_all_present; [reflexivity|].
    apply (storeSettings_present _ _ _ Hstore).
  - intros Hall. apply maybeWriteDefaultSettingsBackToCache_all_present; assumption.
Qed.

(** ** Writing into the maps of a fresh cache *)

Lemma storeSettings_allocated g es :
  exists g', storeSettings (Some g) es = Some (Some g').
Proof.
  revert g. induction es as [|e es IH]; intros g; simpl; [eauto|].
  destruct (g !! entryKey e); apply IH.
Qed.

(** As long as a map of a reachable cache is still nil, no clearing branch
    has run and all three watermarks are still zero. *)
Lemma reachable_maps_allocated account w :
  reachable account w ->
  authInfoCache (cache w) = None \/ settingsCache (cache w) = None ->
  watermarks (cache w) = (0, 0, 0)%N.
Proof.
  induction 1 as [|w op w' Hreach IH Hstep]; [reflexivity|].
  destruct op; simpl in Hstep; unfold mbind, M_bind, mret, M_ret in Hstep.
  - rewrite locked_run in Hstep. injection Hstep as <-. simpl.
    rewrite readAuthInfoFromCache_state.
    destruct (clearCacheIfStale_cases usersV roleOptionsV
                (dbRoleSettingsTableVersion (cache w)) (cache w)) as [[-> _]|[-> _]];
      [exact IH | simpl; intros [|]; discriminate].
  - rewrite locked_run in Hstep. injection Hstep as <-. simpl.
    rewrite readDefaultSettingsFromCache_state.
    destruct (clearCacheIfStale_cases (usersTableVersion (cache w))
                (roleOptionsTableVersion (cache w)) dbRoleSettingsV (cache w))
      as [[-> _]|[-> _]];
      [exact IH | simpl; intros [|]; discriminate].
  - destruct (maybeWriteAuthInfoBackToCache _ _ _ _ w) as [r w1|] eqn:Hw; [|discriminate].
    injection Hstep as <-.
    rewrite (maybeWriteAuthInfoBackToCache_watermarks _ _ _ _ _ _ _ Hw).
    intros Hnil. apply IH. revert Hw Hnil.
    unfold maybeWriteAuthInfoBackToCache. run_monad.
    destruct (_ || _); [intros [= _ <-]; auto|].
    destruct (Grow _ _) as [acct [e|]]; [intros [= _ <-]; auto|].
    destruct (authInfoCache (cache w)) as [g|]; simpl; [|discriminate].
    intros [= _ <-]. simpl. intros [|]; [discriminate | auto].
  - destruct (maybeWriteDefaultSettingsBackToCache _ _ w) as [r w1|] eqn:Hw; [|discriminate].
    injection Hstep as <-.
    rewrite (maybeWriteDefaultSettingsBackToCache_watermarks _ _ _ _ _ Hw).
    intros Hnil. apply IH. revert Hw Hnil.
    unfold maybeWriteDefaultSettingsBackToCache. run_monad.
    destruct (negb _); [intros [= _ <-]; auto|].
    destruct (Grow _ _) as [acct [e|]]; [intros [= _ <-]; auto|].
    destruct (settingsCache (cache w)) as [g|] eqn:Hs.
    + destruct (storeSettings_allocated g settingsEntries) as [g' ->].
      intros [= _ <-]. simpl. intros [|]; [auto | discriminate].
    + intros _ _. auto.
  - rewrite locked_run in Hstep. injection Hstep as <-. simpl.
    destruct (clearCacheIfStale_cases usersV roleOptionsV dbRoleSettingsV (cache w))
      as [[-> _]|[-> _]];
      [exact IH | simpl; intros [|]; discriminate].
Qed.

(** C10 (what the code does at the failing input): on a freshly constructed
    cache both maps are nil; a caller at versions (0, 0, 0) finds the cache
    eligible without the clearing branch running, the write-back passes its
    version recheck, and once the memory grant succeeds the assignment into
    the nil map panics. This holds for the AuthInfo write-back, for the
    settings write-back with at least one entry, and for the GetAuthInfo call
    that leads there. *)
Theorem fresh_cache_writeback_panics (account : BoundAccount) :
  clearCacheIfStale 0 0 0 (NewCache account) = (true, NewCache account)
  /\ (forall aInfo username log,
        snd (Grow account (sizeOfEntry aInfo username)) = None ->
        maybeWriteAuthInfoBackToCache 0 0 aInfo username
          {| cache := NewCache account; opsLog := log |} = Panic nilMapPanic)
  /\ (forall sEntry rest log,
        snd (Grow account (sizeOfSettings None (sEntry :: rest))) = None ->
        maybeWriteDefaultSettingsBackToCache 0 (sEntry :: rest)
          {| cache := NewCache account; opsLog := log |} = Panic nilMapPanic)
  /\ (forall env username r fetched,
        CacheEnabled env = true ->
        GetImmutableTableByName env UsersTableName
          = inl {| GetVersion := 0; IsUncommittedVersion := false |} ->
        GetImmutableTableByName env RoleOptionsTableName
          = inl {| GetVersion := 0; IsUncommittedVersion := false |} ->
        selectEvent env = Received {| Val := IAuthInfo fetched; Err := None |} ->
        (forall c, interference env c = c) ->
        snd (Grow account (sizeOfEntry fetched username)) = None ->
        GetAuthInfo env username r {| cache := NewCache account; opsLog := [] |}
          = Panic nilMapPanic).
Proof.
  split; [reflexivity|].
  assert (Hauth : forall aInfo username log,
             snd (Grow account (sizeOfEntry aInfo username)) = None ->
             maybeWriteAuthInfoBackToCache 0 0 aInfo username
               {| cache := NewCache account; opsLog := log |} = Panic nilMapPanic).
  { intros aInfo username log Hgrow. unfold maybeWriteAuthInfoBackToCache. run_monad.
    destruct (Grow _ _) as [acct err]. simpl in Hgrow. subst err. reflexivity. }
  split; [exact Hauth|]. split.
  - intros sEntry rest log Hgrow. unfold maybeWriteDefaultSettingsBackToCache. run_monad.
    destruct (Grow _ _) as [acct err]. simpl in Hgrow. subst err. reflexivity.
  - intros env username r fetched Hen Hud Hrd Hsel Hid Hgrow.
    rewrite (GetAuthInfo_miss env username r _ _ _ Hen Hud Hrd eq_refl eq_refl);
      [|reflexivity].
    rewrite Hsel. simpl. rewrite Hid.
    change (snd (readAuthInfoFromCache 0 0 username (NewCache account)))
      with (NewCache account).
    rewrite (Hauth fetched username [] Hgrow). reflexivity.
Qed.

(** ** The theorems at work on the example data *)

Lemma writeback_discarded_witness :
  GetAuthInfo (Ex.env (Ex.delivered (IAuthInfo Ex.aliceInfo)) Ex.advanceRoleOptions)
    Ex.alice Ex.authReader (Ex.fresh Ex.roomy)
  = Ok (Ex.aliceInfo, None)
       {| cache := Ex.advanceRoleOptions
                     (snd (readAuthInfoFromCache 5 3 Ex.alice (NewCache Ex.roomy)));
          opsLog := [] |}.
Proof.
  apply (proj1 (proj2 (proj2 writeback_discarded_when_watermark_moved))
           (Ex.env (Ex.delivered (IAuthInfo Ex.aliceInfo)) Ex.advanceRoleOptions)
           Ex.alice Ex.authReader (Ex.fresh Ex.roomy)
           (Ex.committed 5) (Ex.committed 3) Ex.aliceInfo);
    try reflexivity.
  right. vm_compute. discriminate.
Defined.

Lemma no_memory_never_fails_login_witness :
  GetAuthInfo (Ex.env (Ex.delivered (IAuthInfo Ex.aliceInfo)) (fun c => c))
    Ex.alice Ex.authReader (Ex.fresh Ex.full)
  = Ok (Ex.aliceInfo, None)
       {| cache := snd (readAuthInfoFromCache 5 3 Ex.alice (NewCache Ex.full));
          opsLog := [OpsWarningf noMemoryFormat "memory budget exceeded"] |}.
Proof.
  apply (proj1 (proj2 (proj2 no_memory_never_fails_login))
           (Ex.env (Ex.delivered (IAuthInfo Ex.aliceInfo)) (fun c => c))
           Ex.alice Ex.authReader (Ex.fresh Ex.full)
           (Ex.committed 5) (Ex.committed 3) Ex.aliceInfo "memory budget exceeded");
    reflexivity.
Defined.

Lemma settings_lookup_all_or_nothing_witness :
  {| DatabaseID := 0; Username := defaultUsername |} ∈ GenerateSettingsCacheKeys 7 Ex.bob
  /\ mapGet (settingsCache Ex.threeOfFour) {| DatabaseID := 0; Username := defaultUsername |}
     = None
  /\ snd (fst (readDefaultSettingsFromCache 2 Ex.bob 7 Ex.threeOfFour)) = false.
Proof.
  assert (Hin : {| DatabaseID := 0; Username := defaultUsername |}
                ∈ GenerateSettingsCacheKeys 7 Ex.bob).
  { unfold GenerateSettingsCacheKeys. do 3 right. left. }
  split; [exact Hin|]. split; [reflexivity|].
  exact (proj1 (proj2 (settings_lookup_all_or_nothing 2 Ex.bob 7 Ex.threeOfFour)
                  {| DatabaseID := 0; Username := defaultUsername |} Hin eq_refl)).
Defined.

(** Three of bob's four keys are cached: only the fourth entry is paid for,
    and the first three alone cost nothing. *)
Lemma settings_charge_only_absent_keys_witness :
  sizeOfSettings (settingsCache Ex.threeOfFour) Ex.bobEntries = 48
  /\ sizeOfSettings (settingsCache Ex.threeOfFour) (take 3 Ex.bobEntries) = 0.
Proof.
  split; [reflexivity|].
  apply (proj1 (proj2 (proj2 (settings_charge_only_absent_keys
                                 (settingsCache Ex.threeOfFour) (take 3 Ex.bobEntries))))).
  intros e He. simpl in He.
  repeat (apply elem_of_cons in He; destruct He as [->|He]; [eexists; reflexivity|]).
  inversion He.
Defined.

Lemma fresh_cache_writeback_panics_witness :
  maybeWriteAuthInfoBackToCache 0 0 Ex.aliceInfo Ex.alice (Ex.fresh Ex.roomy)
  = Panic nilMapPanic.
Proof.
  apply (proj1 (proj2 (fresh_cache_writeback_panics Ex.roomy)) Ex.aliceInfo Ex.alice []).
  reflexivity.
Defined.

(** The scenario of user alice with hashed password H at table versions
    (users = 5, role options = 3): the first call misses, reads through and
    caches; the second call at the same versions is served from the cache,
    whatever the reader would say; a third call after role options have
    moved on to 4 misses again and takes the value of a new load. *)
Example alice_scenario :
  let reader1 := Ex.delivered (IAuthInfo Ex.aliceInfo) in
  let lost := CtxDone "the reader is not consulted" in
  let at4 :=
    {| CacheEnabled := true;
       GetImmutableTableByName := fun t =>
         inl (Ex.committed match t with
                           | UsersTableName => 5
                           | RoleOptionsTableName => 4
                           | DatabaseRoleSettingsTableName => 2
                           end%N);
       GetImmutableDatabaseByName := Ex.databases;
       selectEvent := reader1;
       interference := fun c => c |} in
  match GetAuthInfo (Ex.env reader1 (fun c => c)) Ex.alice Ex.authReader (Ex.fresh Ex.roomy) with
  | Ok r1 w1 =>
      r1 = (Ex.aliceInfo, None)
      /\ mapGet (authInfoCache (cache w1)) Ex.alice = Some Ex.aliceInfo
      /\ match GetAuthInfo (Ex.env lost (fun c => c)) Ex.alice Ex.authReader w1 with
         | Ok r2 w2 =>
             r2 = (Ex.aliceInfo, None) /\ w2 = w1
             /\ match GetAuthInfo at4 Ex.alice Ex.authReader w2 with
                | Ok r3 w3 =>
                    r3 = (Ex.aliceInfo, None)
                    /\ watermarks (cache w3) = (5, 4, 0)%N
                    /\ snd (fst (readAuthInfoFromCache 5 4 Ex.alice (cache w2))) = false
                | Panic _ => False
                end
         | Panic _ => False
         end
  | Panic _ => False
  end.
Proof. vm_compute. repeat split; reflexivity. Qed.

(** The same for default settings: bob's four entries are fetched at
    settings version 2; a write-back at the same version stores all four, a
    second call is then served from the cache, and a write-back after the
    watermark has moved on to 3, or with no budget, stores nothing. *)
Example bob_settings_scenario :
  let load := Ex.delivered (ISettings Ex.bobEntries) in
  let lost := CtxDone "the reader is not consulted" in
  match GetDefaultSettings (Ex.env load (fun c => c)) Ex.bob "app" Ex.settingsReader
          (Ex.fresh Ex.roomy) with
  | Ok r1 w1 =>
      r1 = (Ex.bobEntries, None)
      /\ used (boundAccount (cache w1)) = 4 * 48 + 2 * 3 + 12 + 3 + 4
      /\ GetDefaultSettings (Ex.env lost (fun c => c)) Ex.bob "app" Ex.settingsReader w1
         = Ok (Ex.bobEntries, None) w1
  | Panic _ => False
  end
  /\ match GetDefaultSettings (Ex.env load Ex.advanceSettings) Ex.bob "app" Ex.settingsReader
             (Ex.fresh Ex.roomy) with
     | Ok r w =>
         r = (Ex.bobEntries, None)
         /\ settingsCache (cache w) = Some ∅ /\ used (boundAccount (cache w)) = 0
     | Panic _ => False
     end
  /\ match GetDefaultSettings (Ex.env load (fun c => c)) Ex.bob "app" Ex.settingsReader
             (Ex.fresh Ex.full) with
     | Ok r w =>
         r = (Ex.bobEntries, None)
         /\ settingsCache (cache w) = Some ∅ /\ length (opsLog w) = 1%nat
     | Panic _ => False
     end.
Proof. vm_compute. repeat split; reflexivity. Qed.

(** A database name that resolves to no descriptor is not an error: the
    lookup goes on with database ID 0. *)
Example unknown_database_is_id_zero :
  resolveDatabaseID (Ex.env (CtxDone "unused") (fun c => c)) "nope" = inl 0%N
  /\ resolveDatabaseID (Ex.env (CtxDone "unused") (fun c => c)) "app" = inl 7%N
  /\ resolveDatabaseID (Ex.env (CtxDone "unused") (fun c => c)) "" = inl 0%N.
Proof. repeat split; reflexivity. Qed.

(** ** Coalesced loading under concurrent calls *)

Lemma lookup_insert_caller (P : Caller -> Prop) (l : list Caller) i c :
  (forall j c', l !! j = Some c' -> P c') -> P c ->
  forall j c', <[i := c]> l !! j = Some c' -> P c'.
Proof.
  intros Hall Hc j c' Hj.
  apply list_lookup_insert_Some in Hj as [(_ & <- & _)|(_ & Hj)]; eauto.
Qed.

Lemma DoChan_empty k :
  DoChan k emptyGroup = (0%nat, {| inFlight := <[k := 0%nat]> ∅; futures := [None] |}).
Proof. unfold DoChan, emptyGroup. simpl. rewrite lookup_empty. reflexivity. Qed.

#[local] Arguments authInfoRequestKey : simpl never.

Section CoalescingFacts.

Variable username : SQLUsername.
Variables usersV roleOptionsV : DescriptorVersion.
Variable readFromSystemTables : nat -> AuthInfo * option error.

#[local] Abbreviation key := (authInfoRequestKey username usersV roleOptionsV).
#[local] Abbreviation stepC := (step username usersV roleOptionsV readFromSystemTables).
#[local] Abbreviation runC := (run username usersV roleOptionsV readFromSystemTables).
#[local] Abbreviation gInv := (groupInv username usersV roleOptionsV readFromSystemTables).
#[local] Abbreviation cOk := (callerOk readFromSystemTables).

Lemma initial_groupInv w n : gInv (initial w n).
Proof.
  unfold groupInv, initial. simpl. split; [|split; [|split]].
  - intros key' k Hk. rewrite lookup_empty in Hk. discriminate.
  - intros k Hk. rewrite lookup_nil in Hk. discriminate.
  - intros k res Hk. rewrite lookup_nil in Hk. discriminate.
  - intros i c Hi. apply lookup_replicate in Hi as [-> _]. exact I.
Qed.

(** A caller moves on and the group stays as it is. *)
Lemma groupInv_setCaller s i c w :
  gInv s -> cOk (populateCacheGroup s) c ->
  gInv (setCaller i c w (populateCacheGroup s) s).
Proof.
  intros (Hflight & Hpending & Hsettled & Hcallers) Hc.
  unfold groupInv. simpl. split; [exact Hflight|]. split; [exact Hpending|].
  split; [exact Hsettled|].
  apply lookup_insert_caller; assumption.
Qed.

Lemma DoChan_groupInv s i k g :
  gInv s ->
  DoChan key (populateCacheGroup s) = (k, g) ->
  gInv (setCaller i (AtSelect k) (world s) g s).
Proof.
  intros Hinv. unfold DoChan.
  destruct (inFlight (populateCacheGroup s) !! key) as [k0|] eqn:Hk.
  - intros [= <- <-]. apply groupInv_setCaller; [exact Hinv|].
    destruct Hinv as (Hflight & _). destruct (Hflight _ _ Hk) as [_ Hf].
    simpl. eapply lookup_lt_Some; eauto.
  - destruct Hinv as (Hflight & Hpending & Hsettled & Hcallers).
    intros [= <- <-]. unfold groupInv. simpl. split; [|split; [|split]].
    + intros key' k'. rewrite lookup_insert. case_decide as Hkey.
      * intros [= <-]. split; [congruence|]. apply list_lookup_middle. reflexivity.
      * intros Hk'. destruct (Hflight _ _ Hk') as [-> _]. congruence.
    + intros k' Hk'. apply lookup_app_Some in Hk' as [Hold|[Hlen Hnew]].
      * apply Hpending in Hold. congruence.
      * rewrite lookup_insert_eq. f_equal.
        apply lookup_lt_Some in Hnew. simpl in Hnew. lia.
    + intros k' res Hk'. apply lookup_app_Some in Hk' as [Hold|[Hlen Hnew]]; [eauto|].
      destruct (k' - length (futures (populateCacheGroup s)))%nat as [|?];
        simpl in Hnew; [discriminate|]. rewrite lookup_nil in Hnew. discriminate.
    + apply lookup_insert_caller.
      * intros j c Hj. specialize (Hcallers j c Hj). destruct c; auto.
        simpl in *. rewrite length_app. simpl. lia.
      * simpl. rewrite length_app. simpl. lia.
Qed.

Lemma fnReturns_groupInv s s' :
  gInv s -> fnReturns username usersV roleOptionsV readFromSystemTables s = Some s' -> gInv s'.
Proof.
  intros (Hflight & Hpending & Hsettled & Hcallers). unfold fnReturns, settle.
  destruct (inFlight (populateCacheGroup s) !! key) as [k|] eqn:Hk; [|discriminate].
  destruct (readFromSystemTables k) as [aInfo err] eqn:Hr.
  intros [= <-]. unfold groupInv. simpl.
  destruct (Hflight _ _ Hk) as [_ Hf].
  pose proof (lookup_lt_Some _ _ _ Hf) as Hlt.
  split; [|split; [|split]].
  - intros key' k'. rewrite lookup_delete. case_decide as Hkey; [discriminate|].
    intros Hk'. destruct (Hflight _ _ Hk') as [-> _]. congruence.
  - intros k' Hk'. apply list_lookup_insert_Some in Hk' as [(_ & ? & _)|(Hne & Hk')];
      [discriminate|].
    apply Hpending in Hk'. congruence.
  - intros k' res Hk'. apply list_lookup_insert_Some in Hk' as [(<- & Heq & _)|(_ & Hk')];
      [|eauto].
    injection Heq as <-. rewrite Hr. reflexivity.
  - intros i c Hi. specialize (Hcallers i c Hi). destruct c; auto.
    simpl in *. rewrite length_insert. exact Hcallers.
Qed.

Lemma step_groupInv ev s s' : gInv s -> stepC ev s = Some s' -> gInv s'.
Proof.
  intros Hinv. destruct ev as [i|i ctxErr|]; simpl; [| |apply fnReturns_groupInv; exact Hinv].
  - (* a caller's own step *)
    unfold stepCaller. destruct (callers s !! i) as [c|] eqn:Hi; [|discriminate].
    destruct c as [| |k|k fetched|src res]; [| | | |discriminate].
    + rewrite locked_run.
      destruct (fst (readAuthInfoFromCache _ _ _ _)) as [aInfo [|]];
        intros [= <-]; apply groupInv_setCaller; try exact Hinv; exact I.
    + destruct (DoChan key (populateCacheGroup s)) as [k g] eqn:Hdo.
      intros [= <-]. eapply DoChan_groupInv; eauto.
    + destruct (futures (populateCacheGroup s) !! k) as [[res|]|] eqn:Hk; try discriminate.
      pose proof Hinv as (_ & _ & Hsettled & _).
      rewrite (Hsettled _ _ Hk). simpl.
      destruct (snd (readFromSystemTables k)) as [e|] eqn:He;
        intros [= <-]; (apply groupInv_setCaller; [exact Hinv|]);
        simpl; unfold outcomeOf; rewrite He; reflexivity.
    + destruct (maybeWriteAuthInfoBackToCache _ _ _ _ _) as [r w|]; [|discriminate].
      intros [= <-]. apply groupInv_setCaller; [exact Hinv|].
      destruct Hinv as (_ & _ & _ & Hcallers). simpl.
      symmetry. exact (Hcallers _ _ Hi).
  - (* the caller's context is done *)
    unfold cancelCaller. destruct (callers s !! i) as [[| |k| |]|] eqn:Hi; try discriminate.
    intros [= <-]. apply groupInv_setCaller; [exact Hinv|]. simpl. eauto.
Qed.

Lemma run_groupInv sched s s' : gInv s -> runC sched s = Some s' -> gInv s'.
Proof.
  revert s. induction sched as [|ev sched IH]; intros s Hinv; simpl.
  - intros [= <-]. exact Hinv.
  - destruct (stepC ev s) as [s1|] eqn:Hstep; [|discriminate].
    apply IH. eapply step_groupInv; eauto.
Qed.

#[local] Abbreviation shInv := sharingInv.

Lemma sharingInv_setCaller s i c w :
  shInv s ->
  match c with
  | AtRead | AtDoChan | Returned FromCache _ => False
  | AtSelect k | AtWriteBack k _ | Returned (FromFlight k) _ => k = 0%nat
  | Returned FromContext _ => True
  end ->
  shInv (setCaller i c w (populateCacheGroup s) s).
Proof.
  intros [Hlen Hcallers] Hc. split; [exact Hlen|]. simpl.
  apply lookup_insert_caller; assumption.
Qed.

Lemma step_sharingInv ev s s' : gInv s -> shInv s -> stepC ev s = Some s' -> shInv s'.
Proof.
  intros Hinv Hsh. destruct ev as [i|i ctxErr|]; simpl.
  - unfold stepCaller. destruct (callers s !! i) as [c|] eqn:Hi; [|discriminate].
    pose proof (proj2 Hsh _ _ Hi) as Hc.
    destruct c as [| |k|k fetched|src res]; try contradiction; [| |discriminate].
    + subst k.
      destruct (futures (populateCacheGroup s) !! 0%nat) as [[res|]|] eqn:Hk;
        try discriminate.
      destruct (loadCacheValue (Received res)) as [[fetched|es] [e|]];
        try discriminate; intros [= <-]; apply sharingInv_setCaller; auto.
    + subst k.
      destruct (maybeWriteAuthInfoBackToCache _ _ _ _ _) as [r w|]; [|discriminate].
      intros [= <-]. apply sharingInv_setCaller; auto.
  - unfold cancelCaller. destruct (callers s !! i) as [[| |k| |]|] eqn:Hi; try discriminate.
    intros [= <-]. apply sharingInv_setCaller; auto.
  - unfold fnReturns, settle.
    destruct (inFlight (populateCacheGroup s) !! key) as [k|]; [|discriminate].
    destruct (readFromSystemTables k) as [aInfo err].
    intros [= <-]. destruct Hsh as [Hlen Hcallers]. split; [|exact Hcallers].
    simpl. rewrite length_insert. exact Hlen.
Qed.

Lemma run_sharingInv sched s s' :
  gInv s -> shInv s -> runC sched s = Some s' -> shInv s'.
Proof.
  revert s. induction sched as [|ev sched IH]; intros s Hinv Hsh; simpl.
  - intros [= <-]. exact Hsh.
  - destruct (stepC ev s) as [s1|] eqn:Hstep; [|discriminate].
    apply IH; [eapply step_groupInv | eapply step_sharingInv]; eauto.
Qed.

Lemma step_callers_length ev s s' :
  stepC ev s = Some s' -> length (callers s') = length (callers s).
Proof.
  destruct ev as [i|i ctxErr|]; simpl.
  - unfold stepCaller. destruct (callers s !! i) as [[| |k|k fetched|src res]|];
      try discriminate.
    + rewrite locked_run. destruct (fst _) as [aInfo [|]]; intros [= <-];
        simpl; apply length_insert.
    + destruct (DoChan _ _) as [k g]. intros [= <-]. simpl. apply length_insert.
    + destruct (futures _ !! k) as [[res|]|]; try discriminate.
      destruct (loadCacheValue _) as [[fetched|es] [e|]]; try discriminate;
        intros [= <-]; simpl; apply length_insert.
    + destruct (maybeWriteAuthInfoBackToCache _ _ _ _ _) as [r w|]; [|discriminate].
      intros [= <-]. simpl. apply length_insert.
  - unfold cancelCaller. destruct (callers s !! i) as [[| |k| |]|]; try discriminate.
    intros [= <-]. simpl. apply length_insert.
  - unfold fnReturns.
    destruct (inFlight _ !! _) as [k|]; [|discriminate].
    destruct (readFromSystemTables k) as [aInfo err].
    destruct (settle _ _ _) as [g|]; [|discriminate].
    intros [= <-]. reflexivity.
Qed.

Lemma run_callers_length sched s s' :
  runC sched s = Some s' -> length (callers s') = length (callers s).
Proof.
  revert s. induction sched as [|ev sched IH]; intros s; simpl.
  - intros [= <-]. reflexivity.
  - destruct (stepC ev s) as [s1|] eqn:Hstep; [|discriminate].
    intros Hrun. rewrite (IH _ Hrun). eapply step_callers_length; eauto.
Qed.

(** Once every caller waits on a future and none is settled, there is one
    future and all wait on it. *)
Lemma all_waiting_share s :
  gInv s -> callers s <> [] ->
  (forall i c, callers s !! i = Some c -> exists k, c = AtSelect k) ->
  (forall k res, futures (populateCacheGroup s) !! k <> Some (Some res)) ->
  shInv s.
Proof.
  intros (Hflight & Hpending & Hsettled & Hcallers) Hne Hwait Hnone.
  assert (Hall : forall k, (k < length (futures (populateCacheGroup s)))%nat ->
                 inFlight (populateCacheGroup s) !! key = Some k).
  { intros k Hk. apply Hpending.
    destruct (lookup_lt_is_Some_2 _ _ Hk) as [[res|] Hf]; [|exact Hf].
    destruct (Hnone _ _ Hf). }
  assert (Hle : (length (futures (populateCacheGroup s)) <= 1)%nat).
  { destruct (le_lt_dec (length (futures (populateCacheGroup s))) 1) as [|Hgt]; [assumption|].
    pose proof (Hall 0%nat ltac:(lia)) as H0.
    pose proof (Hall 1%nat ltac:(lia)) as H1. congruence. }
  assert (Hzero : forall i k, callers s !! i = Some (AtSelect k) -> k = 0%nat).
  { intros i k Hi. specialize (Hcallers _ _ Hi). simpl in Hcallers. lia. }
  split.
  - assert (Hfirst : is_Some (callers s !! 0%nat)).
    { apply lookup_lt_is_Some. destruct (callers s); [congruence | simpl; lia]. }
    destruct Hfirst as [c0 H0]. destruct (Hwait _ _ H0) as [k ->].
    specialize (Hcallers _ _ H0). simpl in Hcallers. lia.
  - intros i c Hi. destruct (Hwait _ _ Hi) as [k ->]. eapply Hzero; eauto.
Qed.

(** C8 (as amended): in every state that [n] concurrent calls of GetAuthInfo
    for one user at one pair of table versions can reach, at most one
    execution of the callback is pending, and a caller that returns through
    the group returns what the execution it attached to returned. If all
    callers have handed their request to the group before any execution has
    settled, the callback is started exactly once from then on, and every
    caller that returns has either that one execution's value or error, or,
    when its own context was done first, its own cancellation error. *)
Theorem coalesced_load_shared (w0 : World) (n : nat) (sched : list Event) (s : System) :
  runC sched (initial w0 n) = Some s ->
  (forall k1 k2,
     futures (populateCacheGroup s) !! k1 = Some None ->
     futures (populateCacheGroup s) !! k2 = Some None -> k1 = k2)
  /\ (forall i k res,
        callers s !! i = Some (Returned (FromFlight k) res) ->
        res = outcomeOf (readFromSystemTables k))
  /\ ((0 < n)%nat ->
      (forall i c, callers s !! i = Some c -> exists k, c = AtSelect k) ->
      (forall k res, futures (populateCacheGroup s) !! k <> Some (Some res)) ->
      forall sched' s',
        runC sched' s = Some s' ->
        length (futures (populateCacheGroup s')) = 1%nat
        /\ forall i src res,
             callers s' !! i = Some (Returned src res) ->
             (src = FromFlight 0 /\ res = outcomeOf (readFromSystemTables 0))
             \/ (src = FromContext /\ exists e, res = (AuthInfo_zero, Some e))).
Proof.
  intros Hrun.
  pose proof (run_groupInv _ _ _ (initial_groupInv w0 n) Hrun) as Hinv.
  split; [|split].
  - destruct Hinv as (_ & Hpending & _). intros k1 k2 H1 H2.
    apply Hpending in H1, H2. congruence.
  - destruct Hinv as (_ & _ & _ & Hcallers). intros i k res Hi.
    exact (Hcallers _ _ Hi).
  - intros Hn Hwait Hnone sched' s' Hrun'.
    assert (Hne : callers s <> []).
    { pose proof (run_callers_length _ _ _ Hrun) as Hlen. simpl in Hlen.
      rewrite length_replicate in Hlen. intros Hnil. rewrite Hnil in Hlen. simpl in Hlen. lia. }
    pose proof (all_waiting_share s Hinv Hne Hwait Hnone) as Hsh.
    pose proof (run_sharingInv _ _ _ Hinv Hsh Hrun') as [Hlen' Hcallers'].
    pose proof (run_groupInv _ _ _ Hinv Hrun') as (_ & _ & _ & Hok).
    split; [exact Hlen'|].
    intros i src res Hi. specialize (Hcallers' _ _ Hi). specialize (Hok _ _ Hi).
    destruct src as [|k|]; [contradiction| |].
    + left. subst k. split; [reflexivity | exact Hok].
    + right. split; [reflexivity | exact Hok].
Qed.

(** A call that runs alone goes through the same steps as the sequential
    GetAuthInfo: on a hit it returns in one step, and on a miss the schedule
    of a lone call ends in the state and with the result that GetAuthInfo
    computes when it is handed the outcome of execution 0. *)
Lemma lone_caller_is_GetAuthInfo (w0 : World) r :
  let env := loneEnv usersV roleOptionsV readFromSystemTables in
  (snd (fst (readAuthInfoFromCache usersV roleOptionsV username (cache w0))) = true ->
   option_map (fun s => (callers s, world s)) (runC [Step 0] (initial w0 1))
   = match GetAuthInfo env username r w0 with
     | Ok res w => Some ([Returned FromCache res], w)
     | Panic _ => None
     end)
  /\ (snd (fst (readAuthInfoFromCache usersV roleOptionsV username (cache w0))) = false ->
      option_map (fun s => (callers s, world s))
        (runC (loneSchedule readFromSystemTables) (initial w0 1))
      = match GetAuthInfo env username r w0 with
        | Ok res w => Some ([Returned (FromFlight 0) res], w)
        | Panic _ => None
        end).
Proof.
  intros env. split.
  - intros Hhit. unfold GetAuthInfo. simpl.
    unfold mbind, M_bind, mret, M_ret, stepCaller. simpl. rewrite locked_run.
    destruct (readAuthInfoFromCache _ _ _ _) as [[ai found] a1]. simpl in *.
    subst found. reflexivity.
  - intros Hmiss.
    rewrite (GetAuthInfo_miss env username r w0 _ _ eq_refl eq_refl eq_refl eq_refl eq_refl);
      [|exact Hmiss].
    unfold loneSchedule. simpl. unfold stepCaller at 1. simpl. rewrite locked_run.
    destruct (readAuthInfoFromCache _ _ _ _) as [[ai found] a1]. simpl in *.
    subst found. unfold stepCaller at 1. simpl.
    rewrite DoChan_empty. unfold fnReturns, settle. simpl. rewrite !lookup_insert_eq.
    destruct (readFromSystemTables 0%nat) as [aInfo [e|]]; simpl.
    + reflexivity.
    + unfold stepCaller at 1. simpl.
      destruct (maybeWriteAuthInfoBackToCache _ _ _ _ _) as [b w|]; reflexivity.
Qed.

End CoalescingFacts.

Lemma coalesced_load_shared_witness :
  Ex.runAlice [Step 0; Step 1; Step 0; Step 1] Ex.twoCalls = Some Ex.bothWaiting
  /\ Ex.runAlice [FnReturns; Step 1; Step 0; Step 0; Step 1] Ex.bothWaiting
     = Some Ex.bothServed
  /\ length (futures (populateCacheGroup Ex.bothServed)) = 1%nat
  /\ callers Ex.bothServed
     = [Returned (FromFlight 0) (Ex.aliceInfo, None);
        Returned (FromFlight 0) (Ex.aliceInfo, None)].
Proof.
  assert (Hrun : Ex.runAlice [Step 0; Step 1; Step 0; Step 1] Ex.twoCalls
                 = Some Ex.bothWaiting) by (vm_compute; reflexivity).
  assert (Hrest : Ex.runAlice [FnReturns; Step 1; Step 0; Step 0; Step 1] Ex.bothWaiting
                  = Some Ex.bothServed) by (vm_compute; reflexivity).
  split; [exact Hrun|]. split; [exact Hrest|]. split; [|vm_compute; reflexivity].
  refine (proj1 (proj2 (proj2 (coalesced_load_shared Ex.alice 5 3 Ex.flakyReader
                                 (Ex.fresh Ex.roomy) 2 _ Ex.bothWaiting Hrun))
                  _ _ _ _ Ex.bothServed Hrest)).
  - lia.
  - intros i c. change (callers Ex.bothWaiting) with [AtSelect 0; AtSelect 0].
    destruct i as [|[|i]]; simpl; intros [= <-]; eauto.
  - intros k res. change (futures (populateCacheGroup Ex.bothWaiting)) with [@None Result].
    destruct k as [|k]; simpl; discriminate.
Defined.

(** C8 (counterexample): two concurrent calls for alice at versions (5, 3)
    on a fresh cache. In the first schedule both have missed the cache and
    are in progress when the first call's flight settles, before the second
    call reaches the group: the callback is executed twice, and the second
    caller gets the second execution's error. In the second schedule both
    share one flight, but the second caller's context is done first: it
    returns its own cancellation error, which is not what the execution
    returned. *)
Lemma coalescing_not_exactly_once :
  option_map callers (Ex.runAlice (take 2 Ex.lateJoin) Ex.twoCalls)
    = Some [AtDoChan; AtDoChan]
  /\ match Ex.runAlice Ex.lateJoin Ex.twoCalls with
     | Some s =>
         forallb isReturned (callers s) = true
         /\ length (futures (populateCacheGroup s)) = 2%nat
         /\ callers s !! 1%nat
            = Some (Returned (FromFlight 1) (AuthInfo_zero, Some "read failed"%string))
         /\ ~ coalescedExactlyOnce Ex.flakyReader s
     | None => False
     end
  /\ match Ex.runAlice Ex.cancelled Ex.twoCalls with
     | Some s =>
         forallb isReturned (callers s) = true
         /\ length (futures (populateCacheGroup s)) = 1%nat
         /\ callers s !! 1%nat
            = Some (Returned FromContext (AuthInfo_zero, Some "context canceled"%string))
         /\ ~ coalescedExactlyOnce Ex.flakyReader s
     | None => False
     end.
Proof.
  split; [vm_compute; reflexivity|]. split.
  - destruct (Ex.runAlice Ex.lateJoin Ex.twoCalls) as [s|] eqn:Hrun;
      vm_compute in Hrun; [|discriminate].
    injection Hrun as <-. repeat split.
    intros [Hlen _]. simpl in Hlen. discriminate.
  - destruct (Ex.runAlice Ex.cancelled Ex.twoCalls) as [s|] eqn:Hrun;
      vm_compute in Hrun; [|discriminate].
    injection Hrun as <-. repeat split.
    intros [_ Hall]. specialize (Hall 1%nat _ _ eq_refl). discriminate.
Qed.

(** * Further properties of the cache *)

(** ** The verdict of the staleness check *)

(** X1: clearCacheIfStale refuses the cache exactly when no caller version
    is above its watermark and at least one is below; and whenever it admits
    the cache, the stored watermarks afterwards are the caller's versions. *)
Theorem clearCacheIfStale_verdict (uv rv dv : DescriptorVersion) (a : Cache) :
  (fst (clearCacheIfStale uv rv dv a) = false
   <-> ((uv <= usersTableVersion a)%N /\ (rv <= roleOptionsTableVersion a)%N
        /\ (dv <= dbRoleSettingsTableVersion a)%N
        /\ (uv < usersTableVersion a \/ rv < roleOptionsTableVersion a
            \/ dv < dbRoleSettingsTableVersion a)%N))
  /\ (fst (clearCacheIfStale uv rv dv a) = true ->
      watermarks (snd (clearCacheIfStale uv rv dv a)) = (uv, rv, dv)).
Proof.
  destruct (clearCacheIfStale_cases uv rv dv a) as [(Hsame & Hu & Hr & Hd)|[Hclear Hlt]].
  - rewrite clearCacheIfStale_not_older in * by assumption. simpl. split.
    + rewrite negb_false_iff, orb3_true, !N.ltb_lt. tauto.
    + rewrite negb_true_iff, orb3_false, !N.ltb_ge. intros (? & ? & ?).
      unfold watermarks. f_equal; [f_equal|]; lia.
  - rewrite Hclear. simpl. split; [|reflexivity].
    split; [discriminate|]. intros (? & ? & ? & _). lia.
Qed.

(** X2: checking twice with the same versions is the same as checking
    once: the second check returns the verdict of the first and changes
    nothing. *)
Theorem clearCacheIfStale_idempotent (uv rv dv : DescriptorVersion) (a : Cache) :
  clearCacheIfStale uv rv dv (snd (clearCacheIfStale uv rv dv a))
  = clearCacheIfStale uv rv dv a.
Proof.
  destruct (clearCacheIfStale_cases uv rv dv a) as [(Hsame & Hu & Hr & Hd)|[Hclear Hlt]].
  - rewrite Hsame. reflexivity.
  - rewrite Hclear. simpl.
    rewrite clearCacheIfStale_not_older by (simpl; lia). simpl.
    rewrite !N.ltb_irrefl. reflexivity.
Qed.

(** X3: a hit is served only at the caller's own versions and changes
    nothing: when readAuthInfoFromCache finds the user, the users and role
    options watermarks equal the caller's versions, the entry is the one
    stored under the name and the cache is as it was; when
    readDefaultSettingsFromCache finds all keys, the settings watermark equals
    the caller's version. *)
Theorem hit_only_at_callers_versions :
  (forall uv rv u a ai a',
     readAuthInfoFromCache uv rv u a = ((ai, true), a') ->
     a' = a
     /\ usersTableVersion a = uv /\ roleOptionsTableVersion a = rv
     /\ mapGet (authInfoCache a) u = Some ai)
  /\ (forall dv u db a es a',
        readDefaultSettingsFromCache dv u db a = ((es, true), a') ->
        a' = a /\ dbRoleSettingsTableVersion a = dv).
Proof.
  split.
  - intros uv rv u a ai a'. unfold readAuthInfoFromCache.
    destruct (clearCacheIfStale_cases uv rv (dbRoleSettingsTableVersion a) a)
      as [(Hsame & Hu & Hr & Hd)|[Hclear Hlt]].
    + rewrite clearCacheIfStale_not_older in * by assumption. simpl.
      destruct (_ || _ || _) eqn:Hb; simpl; [discriminate|].
      apply orb3_false in Hb. rewrite !N.ltb_ge in Hb.
      destruct (mapGet (authInfoCache a) u) as [ai0|] eqn:Hget; [|discriminate].
      intros [= -> <-]. repeat split; lia.
    + rewrite Hclear. simpl. discriminate.
  - intros dv u db a es a'. unfold readDefaultSettingsFromCache.
    destruct (clearCacheIfStale_cases (usersTableVersion a) (roleOptionsTableVersion a) dv a)
      as [(Hsame & Hu & Hr & Hd)|[Hclear Hlt]].
    + rewrite clearCacheIfStale_not_older in * by assumption. cbn [negb].
      destruct (_ || _ || _) eqn:Hb; cbn [negb]; [discriminate|].
      apply orb3_false in Hb. rewrite !N.ltb_ge in Hb.
      destruct (lookupSettings _ _ _) as [es' found].
      intros [= _ _ <-]. split; [reflexivity | lia].
    + rewrite Hclear. cbn [negb]. discriminate.
Qed.

(** ** What a granted write-back stores *)

(** A granted AuthInfo write-back into an allocated map. *)
Lemma maybeWriteAuthInfoBackToCache_granted uv rv ai u w g :
  usersTableVersion (cache w) = uv -> roleOptionsTableVersion (cache w) = rv ->
  authInfoCache (cache w) = Some g ->
  snd (Grow (boundAccount (cache w)) (sizeOfEntry ai u)) = None ->
  maybeWriteAuthInfoBackToCache uv rv ai u w
  = Ok true
      {| cache :=
           setAuthInfoCache (Some (<[u := ai]> g))
             (setBoundAccount
                {| used := used (boundAccount (cache w)) + sizeOfEntry ai u;
                   budget := budget (boundAccount (cache w)) |}
                (cache w));
         opsLog := opsLog w |}.
Proof.
  intros <- <- Hmap Hgrow.
  cbv beta iota delta [maybeWriteAuthInfoBackToCache mbind M_bind mret M_ret getCache
                       putCache].
  rewrite !N.eqb_refl. cbn [negb orb].
  pose proof (Grow_success _ _ Hgrow) as Hacct.
  destruct (Grow _ _) as [acct err]. cbn [fst snd] in Hgrow, Hacct. subst acct err.
  rewrite Hmap. reflexivity.
Qed.

(** X4: insert then look up. After a granted write-back of a user's AuthInfo
    at the stored versions, a read at those versions finds exactly that
    AuthInfo and changes nothing; what is stored under any other name is as
    before, and so are the settings and the watermarks. *)
Theorem authInfo_writeback_then_read (uv rv : DescriptorVersion) (ai : AuthInfo)
    (u : SQLUsername) (w : World) (g : gmap SQLUsername AuthInfo) :
  usersTableVersion (cache w) = uv ->
  roleOptionsTableVersion (cache w) = rv ->
  authInfoCache (cache w) = Some g ->
  snd (Grow (boundAccount (cache w)) (sizeOfEntry ai u)) = None ->
  exists w',
    maybeWriteAuthInfoBackToCache uv rv ai u w = Ok true w'
    /\ readAuthInfoFromCache uv rv u (cache w') = ((ai, true), cache w')
    /\ (forall u', u' <> u ->
          mapGet (authInfoCache (cache w')) u' = mapGet (authInfoCache (cache w)) u')
    /\ settingsCache (cache w') = settingsCache (cache w)
    /\ watermarks (cache w') = watermarks (cache w)
    /\ opsLog w' = opsLog w.
Proof.
  intros Hu Hr Hmap Hgrow. eexists. split.
  { apply maybeWriteAuthInfoBackToCache_granted; eassumption. }
  cbn [cache opsLog]. split; [|split; [|repeat split]].
  - unfold readAuthInfoFromCache.
    rewrite clearCacheIfStale_not_older by (cbn; lia).
    cbn [usersTableVersion roleOptionsTableVersion dbRoleSettingsTableVersion
         setAuthInfoCache setBoundAccount authInfoCache].
    rewrite Hu, Hr, !N.ltb_irrefl. cbn [orb negb mapGet].
    rewrite lookup_insert_eq. reflexivity.
  - intros u' Hne. rewrite Hmap. cbn [setAuthInfoCache authInfoCache mapGet].
    apply lookup_insert_ne. congruence.
Qed.

(** X5: the AuthInfo write-back does not look whether the user is already
    cached: writing the same entry back a second time, as every caller that
    shared one load does, leaves the mappings as the first write-back left
    them and charges the account a second time. *)
Theorem authInfo_writeback_charges_again (uv rv : DescriptorVersion) (ai : AuthInfo)
    (u : SQLUsername) (w : World) (g : gmap SQLUsername AuthInfo) :
  usersTableVersion (cache w) = uv ->
  roleOptionsTableVersion (cache w) = rv ->
  authInfoCache (cache w) = Some g ->
  used (boundAccount (cache w)) + 2 * sizeOfEntry ai u <= budget (boundAccount (cache w)) ->
  0 <= sizeOfEntry ai u ->
  exists w1 w2,
    maybeWriteAuthInfoBackToCache uv rv ai u w = Ok true w1
    /\ maybeWriteAuthInfoBackToCache uv rv ai u w1 = Ok true w2
    /\ authInfoCache (cache w1) = Some (<[u := ai]> g)
    /\ authInfoCache (cache w2) = authInfoCache (cache w1)
    /\ used (boundAccount (cache w1)) = used (boundAccount (cache w)) + sizeOfEntry ai u
    /\ used (boundAccount (cache w2))
       = used (boundAccount (cache w)) + 2 * sizeOfEntry ai u.
Proof.
  intros Hu Hr Hmap Hfit Hpos.
  assert (Hgrow1 : snd (Grow (boundAccount (cache w)) (sizeOfEntry ai u)) = None).
  { unfold Grow. destruct (Z.leb_spec (used (boundAccount (cache w)) + sizeOfEntry ai u)
                             (budget (boundAccount (cache w)))); [reflexivity | lia]. }
  eexists. eexists. split.
  { apply maybeWriteAuthInfoBackToCache_granted; eassumption. }
  split.
  { apply maybeWriteAuthInfoBackToCache_granted with (g := <[u := ai]> g);
      [exact Hu | exact Hr | reflexivity |].
    cbn [cache setAuthInfoCache setBoundAccount boundAccount]. unfold Grow.
    cbn [used budget].
    destruct (Z.leb_spec (used (boundAccount (cache w)) + sizeOfEntry ai u + sizeOfEntry ai u)
                (budget (boundAccount (cache w)))); [reflexivity | lia]. }
  cbn [cache setAuthInfoCache setBoundAccount authInfoCache boundAccount used].
  split; [reflexivity|]. split; [rewrite insert_insert_eq; reflexivity|].
  split; [reflexivity|]. lia.
Qed.

(** ** What a granted settings write-back stores *)

(** The storing loop on an allocated map: a key that was there keeps its
    value, any other key gets the settings of the first entry that names
    it. *)
Lemma storeSettings_lookup g es :
  exists g',
    storeSettings (Some g) es = Some (Some g')
    /\ forall k, g' !! k = match g !! k with
                           | Some v => Some v
                           | None => firstSettingsFor k es
                           end.
Proof.
  revert g. induction es as [|e es IH]; intros g; simpl.
  - exists g. split; [reflexivity|]. intros k. destruct (g !! k); reflexivity.
  - destruct (g !! entryKey e) as [old|] eqn:Hk.
    + destruct (IH g) as (g' & Hrun & Hlook). exists g'. split; [exact Hrun|].
      intros k. rewrite Hlook. destruct (g !! k) eqn:Hgk; [reflexivity|].
      destruct (decide (entryKey e = k)) as [Heq|]; [congruence | reflexivity].
    + destruct (IH (<[entryKey e := Settings e]> g)) as (g' & Hrun & Hlook).
      exists g'. split; [exact Hrun|].
      intros k. rewrite Hlook. destruct (decide (entryKey e = k)) as [<-|Hne].
      * rewrite lookup_insert_eq, Hk. reflexivity.
      * rewrite lookup_insert_ne by exact Hne. reflexivity.
Qed.

Lemma settings_writeback_first_wins_aux dv es w g :
  dbRoleSettingsTableVersion (cache w) = dv ->
  settingsCache (cache w) = Some g ->
  snd (Grow (boundAccount (cache w)) (sizeOfSettings (Some g) es)) = None ->
  exists w' g',
    maybeWriteDefaultSettingsBackToCache dv es w = Ok true w'
    /\ settingsCache (cache w') = Some g'
    /\ (forall k, g' !! k = match g !! k with
                            | Some v => Some v
                            | None => firstSettingsFor k es
                            end)
    /\ authInfoCache (cache w') = authInfoCache (cache w)
    /\ watermarks (cache w') = watermarks (cache w)
    /\ opsLog w' = opsLog w.
Proof.
  intros <- Hmap Hgrow.
  destruct (storeSettings_lookup g es) as (g' & Hstore & Hlook).
  unfold maybeWriteDefaultSettingsBackToCache. run_monad.
  rewrite N.eqb_refl. simpl. rewrite Hmap.
  destruct (Grow _ _) as [acct err]. simpl in Hgrow. subst err.
  rewrite Hstore. eexists. exists g'. split; [reflexivity|]. simpl.
  repeat split. exact Hlook.
Qed.

(** X6: a granted settings write-back never replaces what is cached: a key
    that was in the cache keeps its settings, whatever the written list says,
    and a new key gets the settings of the first entry of the list that
    carries it; the AuthInfo map and the watermarks are untouched. *)
Theorem settings_writeback_first_wins (dv : DescriptorVersion)
    (es : list SettingsCacheEntry) (w : World) (g : gmap SettingsCacheKey (list string)) :
  dbRoleSettingsTableVersion (cache w) = dv ->
  settingsCache (cache w) = Some g ->
  snd (Grow (boundAccount (cache w)) (sizeOfSettings (Some g) es)) = None ->
  exists w' g',
    maybeWriteDefaultSettingsBackToCache dv es w = Ok true w'
    /\ settingsCache (cache w') = Some g'
    /\ (forall k, g' !! k = match g !! k with
                            | Some v => Some v
                            | None => firstSettingsFor k es
                            end)
    /\ authInfoCache (cache w') = authInfoCache (cache w)
    /\ watermarks (cache w') = watermarks (cache w)
    /\ opsLog w' = opsLog w.
Proof.
  intros <- Hmap Hgrow.
  destruct (storeSettings_lookup g es) as (g' & Hstore & Hlook).
  unfold maybeWriteDefaultSettingsBackToCache. run_monad.
  rewrite N.eqb_refl. simpl. rewrite Hmap.
  destruct (Grow _ _) as [acct err]. simpl in Hgrow. subst err.
  rewrite Hstore. eexists. exists g'. split; [reflexivity|]. simpl.
  repeat split. exact Hlook.
Qed.

Lemma firstSettingsFor_NoDup es e :
  NoDup (map entryKey es) -> e ∈ es -> firstSettingsFor (entryKey e) es = Some (Settings e).
Proof.
  induction es as [|e0 es IH]; intros Hnd Hin; [inversion Hin|].
  simpl in *. apply NoDup_cons in Hnd as [Hnotin Hnd].
  apply elem_of_cons in Hin as [->|Hin].
  - rewrite decide_True by reflexivity. reflexivity.
  - rewrite decide_False; [apply IH; assumption|].
    intros Heq. apply Hnotin. rewrite Heq. apply list_elem_of_fmap. eauto.
Qed.

Lemma found_entries_are_written (m : option (gmap SettingsCacheKey (list string))) es found :
  Forall2 (fun k e => entryKey e = k /\ mapGet m k = Some (Settings e))
    (map entryKey es) found ->
  (forall e, e ∈ es -> mapGet m (entryKey e) = Some (Settings e)) ->
  found = es.
Proof.
  revert found. induction es as [|e es IH]; intros found Hall Hwritten; simpl in Hall.
  - inversion Hall. reflexivity.
  - inversion Hall as [|k e' ks found' [Hkey Hget] Hrest]; subst.
    f_equal.
    + rewrite Hwritten in Hget by left. destruct e, e'. simpl in *. congruence.
    + apply IH; [exact Hrest|]. intros e1 He1. apply Hwritten. by right.
Qed.

(** X7: write the settings back, then read them. After a granted write-back
    of entries whose keys are the four precedence keys of a database and a
    user, a read for that database and user at the written version is a hit;
    if none of the keys was cached before and the four keys are distinct, the
    hit returns exactly the written entries. *)
Theorem settings_writeback_then_read (dv : DescriptorVersion) (u : SQLUsername) (db : ID)
    (es : list SettingsCacheEntry) (w : World) (g : gmap SettingsCacheKey (list string)) :
  dbRoleSettingsTableVersion (cache w) = dv ->
  settingsCache (cache w) = Some g ->
  snd (Grow (boundAccount (cache w)) (sizeOfSettings (Some g) es)) = None ->
  map entryKey es = GenerateSettingsCacheKeys db u ->
  exists w',
    maybeWriteDefaultSettingsBackToCache dv es w = Ok true w'
    /\ snd (fst (readDefaultSettingsFromCache dv u db (cache w'))) = true
    /\ snd (readDefaultSettingsFromCache dv u db (cache w')) = cache w'
    /\ ((forall k, k ∈ GenerateSettingsCacheKeys db u -> g !! k = None) ->
        NoDup (GenerateSettingsCacheKeys db u) ->
        fst (fst (readDefaultSettingsFromCache dv u db (cache w'))) = es).
Proof.
  intros Hdv Hmap Hgrow Hkeys.
  destruct (settings_writeback_first_wins_aux dv es w g Hdv Hmap Hgrow)
    as (w' & g' & Hrun & Hmap' & Hlook & _ & Hwm & _).
  exists w'. split; [exact Hrun|].
  assert (Hread : readDefaultSettingsFromCache dv u db (cache w')
                  = (lookupSettings (Some g') (GenerateSettingsCacheKeys db u) [], cache w')).
  { unfold readDefaultSettingsFromCache.
    assert (Hdv' : dbRoleSettingsTableVersion (cache w') = dv).
    { unfold watermarks in Hwm. congruence. }
    rewrite clearCacheIfStale_not_older by lia.
    rewrite Hdv', !N.ltb_irrefl. cbn [orb negb]. rewrite Hmap'. reflexivity. }
  rewrite Hread. cbn [fst snd].
  assert (Hpresent : forall k, k ∈ GenerateSettingsCacheKeys db u ->
                     is_Some (mapGet (Some g') k)).
  { intros k Hk. rewrite <- Hkeys in Hk. apply list_elem_of_fmap in Hk as (e & -> & He).
    simpl. rewrite Hlook. destruct (g !! entryKey e); [eauto|].
    clear -He. induction es as [|e0 es IH]; [inversion He|].
    simpl. destruct (decide (entryKey e0 = entryKey e)); [eauto|].
    apply IH. apply elem_of_cons in He as [->|He]; [congruence | exact He]. }
  split; [apply lookupSettings_all_present; exact Hpresent|].
  split; [reflexivity|].
  intros Habsent Hnd.
  destruct (lookupSettings (Some g') (GenerateSettingsCacheKeys db u) []) as [found ok] eqn:Hl.
  pose proof (lookupSettings_all_present (Some g') (GenerateSettingsCacheKeys db u) []
                Hpresent) as Hok.
  rewrite Hl in Hok. simpl in Hok. subst ok.
  destruct (lookupSettings_hit _ _ _ _ Hl) as (found' & -> & Hall). simpl.
  rewrite <- Hkeys in Hall, Hnd.
  apply (found_entries_are_written (Some g')); [exact Hall|].
  intros e He. simpl. rewrite Hlook, Habsent.
  - apply firstSettingsFor_NoDup; assumption.
  - rewrite <- Hkeys. apply list_elem_of_fmap. eauto.
Qed.

(** ** The public operations off the cached path *)

(** X8: GetAuthInfo without the cache. When the cluster setting is off, or
    when either table is at an uncommitted version, GetAuthInfo returns
    exactly what readFromSystemTables returns and leaves cache and log
    untouched; a failed descriptor lookup comes back as the error with the
    zero AuthInfo, the reader not being asked. *)
Theorem GetAuthInfo_bypass (env : Env) (u : SQLUsername)
    (r : SQLUsername -> AuthInfo * option error) (w : World) :
  (CacheEnabled env = false -> GetAuthInfo env u r w = Ok (r u) w)
  /\ (CacheEnabled env = true ->
      (forall err,
         GetImmutableTableByName env UsersTableName = inr err ->
         GetAuthInfo env u r w = Ok (AuthInfo_zero, Some err) w)
      /\ (forall usersDesc err,
            GetImmutableTableByName env UsersTableName = inl usersDesc ->
            GetImmutableTableByName env RoleOptionsTableName = inr err ->
            GetAuthInfo env u r w = Ok (AuthInfo_zero, Some err) w)
      /\ (forall usersDesc roleDesc,
            GetImmutableTableByName env UsersTableName = inl usersDesc ->
            GetImmutableTableByName env RoleOptionsTableName = inl roleDesc ->
            IsUncommittedVersion usersDesc = true \/ IsUncommittedVersion roleDesc = true ->
            GetAuthInfo env u r w = Ok (r u) w)).
Proof.
  unfold GetAuthInfo. split.
  - intros ->. reflexivity.
  - intros ->. simpl. split; [|split].
    + intros err ->. reflexivity.
    + intros usersDesc err -> ->. reflexivity.
    + intros usersDesc roleDesc -> -> Hunc.
      replace (IsUncommittedVersion usersDesc || IsUncommittedVersion roleDesc) with true;
        [reflexivity|].
      symmetry. apply orb_true_iff. exact Hunc.
Qed.

(** X9: GetDefaultSettings without the cache. The table and database
    lookups come first, so their errors are returned even when the cache is
    off; otherwise, with the cache off or the settings table uncommitted, the
    reader's result for the resolved database is returned and nothing is
    touched. A database name that resolves to no descriptor is no error: the
    call behaves exactly as the call with no database name. *)
Theorem GetDefaultSettings_bypass (env : Env) (u : SQLUsername) (dbName : string)
    (r : SQLUsername -> ID -> list SettingsCacheEntry * option error) (w : World) :
  (forall err,
     GetImmutableTableByName env DatabaseRoleSettingsTableName = inr err ->
     GetDefaultSettings env u dbName r w = Ok ([], Some err) w)
  /\ (forall desc err,
        GetImmutableTableByName env DatabaseRoleSettingsTableName = inl desc ->
        dbName <> ""%string ->
        GetImmutableDatabaseByName env dbName = inr err ->
        GetDefaultSettings env u dbName r w = Ok ([], Some err) w)
  /\ (forall desc databaseID,
        GetImmutableTableByName env DatabaseRoleSettingsTableName = inl desc ->
        resolveDatabaseID env dbName = inl databaseID ->
        IsUncommittedVersion desc = true \/ CacheEnabled env = false ->
        GetDefaultSettings env u dbName r w = Ok (r u databaseID) w)
  /\ (GetImmutableDatabaseByName env dbName = inl None ->
      GetDefaultSettings env u dbName r w = GetDefaultSettings env u "" r w).
Proof.
  unfold GetDefaultSettings. split; [|split; [|split]].
  - intros err ->. reflexivity.
  - intros desc err -> Hne Hdb. unfold resolveDatabaseID.
    destruct (String.eqb_spec dbName ""); [contradiction|]. rewrite Hdb. reflexivity.
  - intros desc databaseID -> -> Hby.
    replace (IsUncommittedVersion desc || negb (CacheEnabled env)) with true;
      [reflexivity|].
    symmetry. apply orb_true_iff. rewrite negb_true_iff. exact Hby.
  - intros Hdb. unfold resolveDatabaseID. simpl.
    destruct (String.eqb dbName ""); [reflexivity|]. rewrite Hdb. reflexivity.
Qed.

(** ** The cached path *)

Lemma readAuthInfoFromCache_hit uv rv u a ai a' :
  readAuthInfoFromCache uv rv u a = ((ai, true), a') ->
  a' = a /\ mapGet (authInfoCache a) u = Some ai.
Proof.
  unfold readAuthInfoFromCache.
  destruct (clearCacheIfStale_cases uv rv (dbRoleSettingsTableVersion a) a)
    as [(Hsame & _)|[Hclear _]].
  - destruct (clearCacheIfStale _ _ _ _) as [ok a1]. simpl in Hsame. subst a1.
    destruct ok; simpl; [|discriminate].
    destruct (mapGet (authInfoCache a) u) as [ai0|]; [|discriminate].
    intros [= -> <-]. auto.
  - rewrite Hclear. simpl. discriminate.
Qed.

(** X10: a hit is served from the cache alone. When the read finds the
    entry, GetAuthInfo returns it with no error and GetDefaultSettings returns
    the four cached entries, whatever the reader, the coalesced load or other
    goroutines would do, and the cache and the log are left exactly as they
    were. *)
Theorem hit_served_without_load :
  (forall env u r w usersDesc roleDesc,
     CacheEnabled env = true ->
     GetImmutableTableByName env UsersTableName = inl usersDesc ->
     GetImmutableTableByName env RoleOptionsTableName = inl roleDesc ->
     IsUncommittedVersion usersDesc = false ->
     IsUncommittedVersion roleDesc = false ->
     snd (fst (readAuthInfoFromCache (GetVersion usersDesc) (GetVersion roleDesc)
                 u (cache w))) = true ->
     exists ai,
       mapGet (authInfoCache (cache w)) u = Some ai
       /\ GetAuthInfo env u r w = Ok (ai, None) w)
  /\ (forall env u dbName r w desc databaseID,
        CacheEnabled env = true ->
        GetImmutableTableByName env DatabaseRoleSettingsTableName = inl desc ->
        resolveDatabaseID env dbName = inl databaseID ->
        IsUncommittedVersion desc = false ->
        snd (fst (readDefaultSettingsFromCache (GetVersion desc) u databaseID (cache w)))
          = true ->
        exists es,
          Forall2 (fun k e => entryKey e = k
                              /\ mapGet (settingsCache (cache w)) k = Some (Settings e))
            (GenerateSettingsCacheKeys databaseID u) es
          /\ GetDefaultSettings env u dbName r w = Ok (es, None) w).
Proof.
  split.
  - intros env u r w usersDesc roleDesc Hen Hud Hrd Hu Hr Hhit.
    unfold GetAuthInfo. rewrite Hen, Hud, Hrd, Hu, Hr. simpl.
    unfold mbind, M_bind. rewrite locked_run.
    destruct (readAuthInfoFromCache _ _ u (cache w)) as [[ai found] a1] eqn:Hread.
    simpl in Hhit. subst found.
    destruct (readAuthInfoFromCache_hit _ _ _ _ _ _ Hread) as [-> Hget].
    exists ai. split; [exact Hget|]. simpl. rewrite World_eta. reflexivity.
  - intros env u dbName r w desc databaseID Hen Hd Hdb Hu Hhit.
    unfold GetDefaultSettings. rewrite Hen, Hd, Hdb, Hu. simpl.
    unfold mbind, M_bind. rewrite locked_run.
    destruct (readDefaultSettingsFromCache _ u databaseID (cache w))
      as [[es found] a1] eqn:Hread.
    simpl in Hhit. subst found.
    destruct (readDefaultSettingsFromCache_hit _ _ _ _ _ _ Hread) as [-> Hall].
    exists es. split; [exact Hall|]. simpl. rewrite World_eta. reflexivity.
Qed.


(** X12: GetAuthInfo invents no error. Every error it returns is one a
    collaborator produced: a descriptor lookup, the reader, the coalesced load
    or the caller's own context; the memory account's refusal is never among
    them. Except for the reader's own pair, an error comes with the zero
    AuthInfo. *)
Theorem GetAuthInfo_errors_are_collaborators (env : Env) (u : SQLUsername)
    (r : SQLUsername -> AuthInfo * option error) (w w' : World)
    (ai : AuthInfo) (e : error) :
  GetAuthInfo env u r w = Ok (ai, Some e) w' ->
  r u = (ai, Some e)
  \/ (ai = AuthInfo_zero
      /\ (GetImmutableTableByName env UsersTableName = inr e
          \/ GetImmutableTableByName env RoleOptionsTableName = inr e
          \/ selectEvent env = CtxDone e
          \/ exists val, selectEvent env = Received {| Val := val; Err := Some e |})).
Proof.
  unfold GetAuthInfo.
  destruct (CacheEnabled env); simpl; [|intros [= -> _]; auto].
  destruct (GetImmutableTableByName env UsersTableName) as [usersDesc|err];
    [|intros [= <- <- _]; auto].
  destruct (GetImmutableTableByName env RoleOptionsTableName) as [roleDesc|err];
    [|intros [= <- <- _]; auto].
  destruct (_ || _); [intros [= -> _]; auto|].
  unfold mbind, M_bind. rewrite locked_run.
  pose proof (readAuthInfoFromCache_miss_zero (GetVersion usersDesc) (GetVersion roleDesc)
                u (cache w)) as Hzero.
  destruct (readAuthInfoFromCache _ _ u (cache w)) as [[ai0 found] a1]. simpl in *.
  destruct found; [discriminate|]. specialize (Hzero eq_refl). subst ai0.
  unfold unlockedWait. simpl.
  destruct (selectEvent env) as [[val [err|]]|err]; simpl.
  - intros [= <- <- _]. right. split; [reflexivity|]. do 3 right. eauto.
  - destruct val as [fetched|es]; [|discriminate].
    destruct (maybeWriteAuthInfoBackToCache _ _ _ _ _); discriminate.
  - intros [= <- <- _]. right. split; [reflexivity|]. auto.
Qed.

(** ** When the write-back cannot panic *)

Lemma clearCacheIfStale_allocated uv rv dv a :
  allocated a -> allocated (snd (clearCacheIfStale uv rv dv a)).
Proof.
  intros Ha. destruct (clearCacheIfStale_cases uv rv dv a) as [(-> & _)|[-> _]];
    [exact Ha | split; simpl; eauto].
Qed.

Lemma maybeWriteAuthInfoBackToCache_allocated uv rv ai u w :
  allocated (cache w) ->
  exists b w', maybeWriteAuthInfoBackToCache uv rv ai u w = Ok b w' /\ allocated (cache w').
Proof.
  intros [[g Hg] Hs]. unfold maybeWriteAuthInfoBackToCache. run_monad.
  destruct (_ || _); [do 2 eexists; split; [reflexivity | split; eauto]|].
  destruct (Grow _ _) as [acct [e|]].
  - do 2 eexists. split; [reflexivity|]. split; simpl; eauto.
  - rewrite Hg. simpl. do 2 eexists. split; [reflexivity|]. split; simpl; eauto.
Qed.

Lemma maybeWriteDefaultSettingsBackToCache_allocated dv es w :
  allocated (cache w) ->
  exists b w', maybeWriteDefaultSettingsBackToCache dv es w = Ok b w' /\ allocated (cache w').
Proof.
  intros [Hg [g Hs]]. unfold maybeWriteDefaultSettingsBackToCache. run_monad.
  destruct (negb _); [do 2 eexists; split; [reflexivity | split; eauto]|].
  destruct (Grow _ _) as [acct [e|]].
  - do 2 eexists. split; [reflexivity|]. split; simpl; eauto.
  - rewrite Hs. destruct (storeSettings_allocated g es) as [g' ->].
    do 2 eexists. split; [reflexivity|]. split; simpl; eauto.
Qed.

(** GetAuthInfo returns as soon as the maps are allocated when the
    write-back is reached. *)
Lemma GetAuthInfo_returns env u r w :
  (forall es, selectEvent env <> Received {| Val := ISettings es; Err := None |}) ->
  (forall usersDesc roleDesc,
     GetImmutableTableByName env UsersTableName = inl usersDesc ->
     GetImmutableTableByName env RoleOptionsTableName = inl roleDesc ->
     allocated (interference env
                  (snd (readAuthInfoFromCache (GetVersion usersDesc) (GetVersion roleDesc)
                          u (cache w))))) ->
  exists res w', GetAuthInfo env u r w = Ok res w'.
Proof.
  intros Hval Halloc. unfold GetAuthInfo.
  destruct (CacheEnabled env); simpl; [|eauto].
  destruct (GetImmutableTableByName env UsersTableName) as [usersDesc|err]; [|eauto].
  destruct (GetImmutableTableByName env RoleOptionsTableName) as [roleDesc|err]; [|eauto].
  specialize (Halloc usersDesc roleDesc eq_refl eq_refl).
  destruct (_ || _); [eauto|].
  unfold mbind, M_bind. rewrite locked_run.
  destruct (readAuthInfoFromCache _ _ u (cache w)) as [[ai found] a1]. simpl in *.
  destruct found; [eauto|]. unfold unlockedWait. simpl.
  destruct (selectEvent env) as [[val [err|]]|err]; simpl; eauto.
  destruct val as [fetched|es]; [|destruct (Hval es); reflexivity].
  destruct (maybeWriteAuthInfoBackToCache_allocated (GetVersion usersDesc)
              (GetVersion roleDesc) fetched u
              {| cache := interference env a1; opsLog := opsLog w |} Halloc)
    as (b & w' & -> & _).
  eauto.
Qed.

(** X13: with both maps allocated nothing panics. Every operation on the
    embedded state returns and leaves both maps allocated; and GetAuthInfo
    returns whenever the other goroutines keep the maps allocated and the
    coalesced load delivers an AuthInfo. *)
Theorem allocated_maps_never_panic (w : World) :
  allocated (cache w) ->
  (forall op, exists w', runOp op w = Ok tt w' /\ allocated (cache w'))
  /\ (forall env u r,
        (forall c, allocated c -> allocated (interference env c)) ->
        (forall es, selectEvent env <> Received {| Val := ISettings es; Err := None |}) ->
        exists res w', GetAuthInfo env u r w = Ok res w').
Proof.
  intros Ha. split.
  - intros op. destruct op; simpl; unfold mbind, M_bind, mret, M_ret.
    + rewrite locked_run. eexists. split; [reflexivity|]. simpl.
      rewrite readAuthInfoFromCache_state. apply clearCacheIfStale_allocated, Ha.
    + rewrite locked_run. eexists. split; [reflexivity|]. simpl.
      rewrite readDefaultSettingsFromCache_state. apply clearCacheIfStale_allocated, Ha.
    + destruct (maybeWriteAuthInfoBackToCache_allocated usersV roleOptionsV aInfo username
                  w Ha) as (b & w' & -> & Ha'). eauto.
    + destruct (maybeWriteDefaultSettingsBackToCache_allocated dbRoleSettingsV
                  settingsEntries w Ha) as (b & w' & -> & Ha'). eauto.
    + rewrite locked_run. eexists. split; [reflexivity|]. simpl.
      apply clearCacheIfStale_allocated, Ha.
  - intros env u r Hkeep Hval. apply GetAuthInfo_returns; [exact Hval|].
    intros usersDesc roleDesc _ _. apply Hkeep.
    rewrite readAuthInfoFromCache_state. apply clearCacheIfStale_allocated, Ha.
Qed.

(** X14: from a fresh cache on, a caller whose table versions are not both
    zero cannot run into the nil maps: in every reachable state, GetAuthInfo
    at a users or role options version of at least 1 returns, provided the
    goroutines running meanwhile keep allocated maps allocated and the load
    delivers an AuthInfo. *)
Theorem GetAuthInfo_returns_at_real_versions (account : BoundAccount) (w : World)
    (env : Env) (u : SQLUsername) (r : SQLUsername -> AuthInfo * option error) :
  reachable account w ->
  (forall usersDesc roleDesc,
     GetImmutableTableByName env UsersTableName = inl usersDesc ->
     GetImmutableTableByName env RoleOptionsTableName = inl roleDesc ->
     (0 < GetVersion usersDesc \/ 0 < GetVersion roleDesc)%N) ->
  (forall c, allocated c -> allocated (interference env c)) ->
  (forall es, selectEvent env <> Received {| Val := ISettings es; Err := None |}) ->
  exists res w', GetAuthInfo env u r w = Ok res w'.
Proof.
  intros Hreach Hpos Hkeep Hval. apply GetAuthInfo_returns; [exact Hval|].
  intros usersDesc roleDesc Hud Hrd. apply Hkeep.
  specialize (Hpos _ _ Hud Hrd).
  rewrite readAuthInfoFromCache_state.
  destruct (clearCacheIfStale_cases (GetVersion usersDesc) (GetVersion roleDesc)
              (dbRoleSettingsTableVersion (cache w)) (cache w))
    as [(-> & Hu & Hr & _)|[-> _]]; [|split; simpl; eauto].
  pose proof (reachable_maps_allocated account w Hreach) as Hnil.
  unfold allocated.
  destruct (authInfoCache (cache w)) as [g|] eqn:Hg;
    [destruct (settingsCache (cache w)) as [g'|] eqn:Hs; [eauto|]|].
  - specialize (Hnil (or_intror eq_refl)). unfold watermarks in Hnil.
    injection Hnil as H1 H2 H3. lia.
  - specialize (Hnil (or_introl eq_refl)). unfold watermarks in Hnil.
    injection Hnil as H1 H2 H3. lia.
Qed.

(** ** A miss and what it returns *)



(** ** The precedence keys *)

(** X16: the four precedence keys are pairwise distinct exactly when the
    database is not the default database and the user is not the default
    user; for database 0 or the empty username the list repeats keys. *)
Theorem GenerateSettingsCacheKeys_NoDup (databaseID : ID) (username : SQLUsername) :
  NoDup (GenerateSettingsCacheKeys databaseID username)
  <-> databaseID <> defaultDatabaseID /\ username <> defaultUsername.
Proof.
  unfold GenerateSettingsCacheKeys. split.
  - intros Hnd. apply NoDup_cons in Hnd as [H1 Hnd]. apply NoDup_cons in Hnd as [H2 _].
    split.
    + intros ->. apply H1. left.
    + intros ->. apply H1. right. left.
  - intros [Hdb Hu].
    repeat (apply NoDup_cons; split);
      [| | | | apply NoDup_nil; exact I];
      rewrite ?elem_of_cons, ?elem_of_nil; intros H;
      repeat (destruct H as [H|H]); try exact H; injection H; congruence.
Qed.

(** ** The request keys of the coalescing group *)

Lemma append_cons c (s t : string) : String c s +:+ t = String c (s +:+ t).
Proof. reflexivity. Qed.

Lemma append_nil (t : string) : "" +:+ t = t.
Proof. reflexivity. Qed.

Lemma noDash_app_dash x t : ~ noDash (x +:+ String "-" t).
Proof.
  induction x as [|c x IH]; rewrite ?append_nil, ?append_cons; simpl;
    intros [Hc Hrest]; [congruence | auto].
Qed.

(** Splitting at the last separator is unambiguous. *)
Lemma split_at_last_dash x x' y y' :
  noDash y -> noDash y' ->
  x +:+ String "-" y = x' +:+ String "-" y' -> x = x' /\ y = y'.
Proof.
  intros Hy Hy'. revert x'. induction x as [|c x IH]; intros [|c' x'];
    rewrite ?append_nil, ?append_cons.
  - intros [= ->]. auto.
  - intros [= <- ->]. destruct (noDash_app_dash _ _ Hy).
  - intros [= -> <-]. destruct (noDash_app_dash _ _ Hy').
  - intros [= <- Heq]. destruct (IH _ Heq) as [-> ->]. auto.
Qed.

Lemma pretty_N_go_noDash x s : noDash s -> noDash (pretty_N_go x s).
Proof.
  revert s. induction (N.lt_wf_0 x) as [x _ IH]; intros s Hs.
  assert (x = 0 \/ 0 < x)%N as [->|Hpos] by lia.
  - rewrite pretty_N_go_0. exact Hs.
  - rewrite pretty_N_go_step by exact Hpos. apply IH.
    + apply N.div_lt; [exact Hpos | reflexivity].
    + simpl. split; [|exact Hs].
      unfold pretty_N_char. repeat case_match; discriminate.
Qed.

Lemma pretty_N_noDash (x : N) : noDash (pretty x).
Proof.
  unfold pretty, pretty_N. case_decide; [simpl; split; [discriminate | exact I]|].
  apply pretty_N_go_noDash. exact I.
Qed.

Lemma append_assoc (a b c : string) : (a +:+ b) +:+ c = a +:+ (b +:+ c).
Proof.
  induction a as [|ch a IH]; rewrite ?append_nil, ?append_cons;
    [reflexivity | f_equal; exact IH].
Qed.

Lemma regroup_at_dash (x a t : string) :
  x +:+ String "-" (a +:+ t) = (x +:+ String "-" a) +:+ t.
Proof. rewrite append_assoc, append_cons. reflexivity. Qed.

(** A key made of a prefix, a name and two numbers determines all three. *)
Lemma key_parts_inj (p u u' : string) (m n m' n' : N) :
  p +:+ u +:+ "-" +:+ pretty m +:+ "-" +:+ pretty n
  = p +:+ u' +:+ "-" +:+ pretty m' +:+ "-" +:+ pretty n' ->
  u = u' /\ m = m' /\ n = n'.
Proof.
  intros Heq. apply (inj (String.append p)) in Heq.
  change (u +:+ "-" +:+ pretty m +:+ "-" +:+ pretty n)
    with (u +:+ String "-" (pretty m +:+ String "-" (pretty n))) in Heq.
  change (u' +:+ "-" +:+ pretty m' +:+ "-" +:+ pretty n')
    with (u' +:+ String "-" (pretty m' +:+ String "-" (pretty n'))) in Heq.
  rewrite !regroup_at_dash in Heq.
  apply split_at_last_dash in Heq as [Heq Hn]; [|apply pretty_N_noDash..].
  apply split_at_last_dash in Heq as [-> Hm]; [|apply pretty_N_noDash..].
  apply (inj pretty) in Hm, Hn. auto.
Qed.

(** X17: the request keys tell apart everything they are made of: two
    GetAuthInfo keys are equal only for the same user and the same two table
    versions, two GetDefaultSettings keys only for the same user, database and
    version, and no GetAuthInfo key is a GetDefaultSettings key. A load is
    therefore never shared across a version boundary or between users, even
    for names that contain the separator. *)
Theorem request_keys_injective :
  (forall u uv rv u' uv' rv',
     authInfoRequestKey u uv rv = authInfoRequestKey u' uv' rv' ->
     u = u' /\ uv = uv' /\ rv = rv')
  /\ (forall u db dv u' db' dv',
        defaultSettingsRequestKey u db dv = defaultSettingsRequestKey u' db' dv' ->
        u = u' /\ db = db' /\ dv = dv')
  /\ (forall u uv rv u' db dv,
        authInfoRequestKey u uv rv <> defaultSettingsRequestKey u' db dv).
Proof.
  split; [|split].
  - intros [u] uv rv [u'] uv' rv' Heq. unfold authInfoRequestKey in Heq. simpl in Heq.
    apply (key_parts_inj "authinfo-") in Heq as (-> & -> & ->). auto.
  - intros [u] db dv [u'] db' dv' Heq. unfold defaultSettingsRequestKey in Heq.
    simpl in Heq.
    apply (key_parts_inj "defaultsettings-") in Heq as (-> & -> & ->). auto.
  - intros u uv rv u' db dv. unfold authInfoRequestKey, defaultSettingsRequestKey.
    rewrite !append_cons. discriminate.
Qed.

(** ** A cache without budget *)

Lemma sizeOfEntry_exact ai u :
  let total := sizeOfUsername + len (Normalized u) + sizeOfAuthInfo
               + match HashedPassword ai with
                 | Some h => Size h
                 | None => 0
                 end
               + sizeOfTimestamp in
  total < 2 ^ 63 -> sizeOfEntry ai u = total /\ 72 <= total.
Proof.
  intros total Hfit. subst total. unfold sizeOfEntry.
  assert (Hlen : 0 <= len (Normalized u)) by (unfold len; lia).
  assert (Hhp : 0 <= match HashedPassword ai with Some h => Size h | None => 0 end).
  { destruct (HashedPassword ai); unfold Size, len; lia. }
  unfold intAdd at 4. rewrite !intAdd_wrap.
  unfold sizeOfUsername, sizeOfAuthInfo, sizeOfTimestamp in *.
  change (2 ^ 63) with 9223372036854775808 in *.
  split; [|lia]. apply wrap64_small.
  change (2 ^ 63) with 9223372036854775808. lia.
Qed.

Lemma entryCharge_lower e : 48 <= entryCharge e.
Proof.
  unfold entryCharge, sizeOfSettingsCacheEntry, len.
  assert (0 <= foldr (fun s total => Z.of_nat (String.length s) + total) 0 (Settings e)).
  { induction (Settings e) as [|s ss IHs]; simpl; lia. }
  lia.
Qed.

Lemma totalCharge_all_absent m es :
  (forall k, mapGet m k = None) ->
  totalCharge m es = foldr (fun e total => entryCharge e + total) 0 es.
Proof.
  intros Hnone. unfold totalCharge. induction es as [|e es IH]; [reflexivity|].
  simpl. unfold isAbsent at 1. rewrite Hnone. simpl. rewrite IH. reflexivity.
Qed.

Lemma step_emptyAndBroke op w :
  emptyAndBroke (cache w) -> opFits op ->
  exists w', runOp op w = Ok tt w' /\ emptyAndBroke (cache w').
Proof.
  intros (Hused & Hbudget & Hauth & Hset) Hfit.
  assert (Hcleared : forall uv rv dv,
            emptyAndBroke (snd (clearCacheIfStale uv rv dv (cache w)))).
  { intros uv rv dv.
    destruct (clearCacheIfStale_cases uv rv dv (cache w)) as [(-> & _)|[-> _]].
    - repeat split; assumption.
    - repeat split; simpl; try lia; try assumption; intros; apply lookup_empty. }
  destruct op; simpl in *; unfold mbind, M_bind, mret, M_ret.
  - rewrite locked_run. eexists. split; [reflexivity|]. simpl.
    rewrite readAuthInfoFromCache_state. apply Hcleared.
  - rewrite locked_run. eexists. split; [reflexivity|]. simpl.
    rewrite readDefaultSettingsFromCache_state. apply Hcleared.
  - destruct (sizeOfEntry_exact aInfo username Hfit) as [Hsize Hpos].
    unfold maybeWriteAuthInfoBackToCache. run_monad.
    destruct (_ || _); [eexists; split; [reflexivity|]; repeat split; assumption|].
    unfold Grow. rewrite Hsize, Hbudget.
    destruct (Z.leb_spec (used (boundAccount (cache w))
                          + (sizeOfUsername + len (Normalized username) + sizeOfAuthInfo
                             + match HashedPassword aInfo with
                               | Some h => Size h
                               | None => 0
                               end + sizeOfTimestamp)) 0); [lia|].
    eexists. split; [reflexivity|]. simpl. repeat split; assumption.
  - unfold maybeWriteDefaultSettingsBackToCache. run_monad.
    destruct (negb _); [eexists; split; [reflexivity|]; repeat split; assumption|].
    rewrite sizeOfSettings_charge.
    rewrite (totalCharge_all_absent _ _ Hset).
    rewrite (totalCharge_all_absent None) in Hfit by reflexivity.
    destruct settingsEntries as [|e es].
    + simpl. change (wrap64 0) with 0. unfold Grow. rewrite Z.add_0_r, Hbudget.
      destruct (Z.leb_spec (used (boundAccount (cache w))) 0).
      * eexists. split; [reflexivity|]. simpl. repeat split; try assumption; lia.
      * eexists. split; [reflexivity|]. simpl. repeat split; assumption.
    + assert (Hge : 48 <= foldr (fun e0 total => entryCharge e0 + total) 0 (e :: es)).
      { simpl. pose proof (entryCharge_lower e).
        assert (0 <= foldr (fun e0 total => entryCharge e0 + total) 0 es).
        { clear. induction es as [|e0 es IH]; simpl; [lia|].
          pose proof (entryCharge_lower e0). lia. }
        lia. }
      rewrite wrap64_small
        by (change (2 ^ 63) with 9223372036854775808 in *; lia).
      unfold Grow. rewrite Hbudget.
      destruct (Z.leb_spec (used (boundAccount (cache w))
                            + foldr (fun e0 total => entryCharge e0 + total) 0 (e :: es)) 0);
        [lia|].
      eexists. split; [reflexivity|]. simpl. repeat split; assumption.
  - rewrite locked_run. eexists. split; [reflexivity|]. simpl. apply Hcleared.
Qed.

(** X18: a cache whose account has a budget of zero never holds an entry.
    From a fresh cache with such an account, every sequence of operations
    whose sizes fit an int returns, and afterwards neither map holds any
    entry: each write-back is refused by the account and stores nothing. *)
Theorem zero_budget_caches_nothing (account : BoundAccount) (ops : list Op) :
  budget account = 0 ->
  0 <= used account ->
  Forall opFits ops ->
  exists w,
    runOps ops {| cache := NewCache account; opsLog := [] |} = Ok tt w
    /\ (forall u, mapGet (authInfoCache (cache w)) u = None)
    /\ (forall k, mapGet (settingsCache (cache w)) k = None).
Proof.
  intros Hbudget Hused Hfit.
  assert (Hgen : forall w0, emptyAndBroke (cache w0) ->
                 exists w, runOps ops w0 = Ok tt w /\ emptyAndBroke (cache w)).
  { induction Hfit as [|op ops Hop Hops IH]; intros w0 Hinv; simpl.
    - exists w0. split; [reflexivity | exact Hinv].
    - destruct (step_emptyAndBroke op w0 Hinv Hop) as (w1 & Hstep & Hinv1).
      destruct (IH w1 Hinv1) as (w2 & Hrun & Hinv2).
      exists w2. split; [|exact Hinv2].
      unfold mbind, M_bind. rewrite Hstep. exact Hrun. }
  destruct (Hgen {| cache := NewCache account; opsLog := [] |}) as (w & Hrun & Hinv).
  { repeat split; simpl; auto. }
  exists w. split; [exact Hrun|]. destruct Hinv as (_ & _ & Ha & Hs). auto.
Qed.

(** ** Executions and callers *)

Lemma countJoined_insert l i c0 c :
  l !! i = Some c0 ->
  (countJoined (<[i := c]> l) + (if joined c0 then 1 else 0)
   = countJoined l + (if joined c then 1 else 0))%nat.
Proof.
  revert i. induction l as [|c' l IH]; intros i Hi; [discriminate|].
  destruct i as [|i]; simpl in *.
  - injection Hi as ->. lia.
  - specialize (IH i Hi). lia.
Qed.

Lemma countJoined_le_length l : (countJoined l <= length l)%nat.
Proof. induction l as [|c l IH]; simpl; [lia|]. destruct (joined c); lia. Qed.

Lemma countJoined_replicate_AtRead n : countJoined (replicate n AtRead) = 0%nat.
Proof. induction n as [|n IH]; simpl; [reflexivity | exact IH]. Qed.

Section ExecutionsAndCallers.

Variable username : SQLUsername.
Variables usersV roleOptionsV : DescriptorVersion.
Variable readFromSystemTables : nat -> AuthInfo * option error.

#[local] Abbreviation stepX := (step username usersV roleOptionsV readFromSystemTables).
#[local] Abbreviation runX := (run username usersV roleOptionsV readFromSystemTables).

Lemma step_executions ev s s' :
  stepX ev s = Some s' ->
  (length (futures (populateCacheGroup s)) <= countJoined (callers s))%nat ->
  (length (futures (populateCacheGroup s')) <= countJoined (callers s'))%nat.
Proof.
  destruct ev as [i|i ctxErr|]; simpl.
  - unfold stepCaller. destruct (callers s !! i) as [c|] eqn:Hi; [|discriminate].
    destruct c as [| |k|k fetched|src res]; [| | | |discriminate].
    + rewrite locked_run. destruct (fst _) as [aInfo [|]]; intros [= <-] Hle;
        cbn [populateCacheGroup callers setCaller];
        match goal with
        | |- context [<[i := ?c]> _] =>
            pose proof (countJoined_insert _ _ _ c Hi) as Hc
        end; simpl in Hc; lia.
    + unfold DoChan.
      destruct (inFlight (populateCacheGroup s) !! _) as [k|]; intros [= <-] Hle;
        cbn [populateCacheGroup callers setCaller futures];
        pose proof (countJoined_insert _ _ _ (AtSelect k) Hi) as Hc ||
        pose proof (countJoined_insert _ _ _
                      (AtSelect (length (futures (populateCacheGroup s)))) Hi) as Hc;
        simpl in Hc; rewrite ?length_app; simpl; lia.
    + destruct (futures _ !! k) as [[res|]|]; try discriminate.
      destruct (loadCacheValue _) as [[fetched|es] [e|]]; try discriminate;
        intros [= <-] Hle; cbn [populateCacheGroup callers setCaller];
        match goal with
        | |- context [<[i := ?c]> _] =>
            pose proof (countJoined_insert _ _ _ c Hi) as Hc
        end; simpl in Hc; lia.
    + destruct (maybeWriteAuthInfoBackToCache _ _ _ _ _) as [b w|]; [|discriminate].
      intros [= <-] Hle. cbn [populateCacheGroup callers setCaller].
      pose proof (countJoined_insert _ _ _ (Returned (FromFlight k) (fetched, None)) Hi)
        as Hc.
      simpl in Hc. lia.
  - unfold cancelCaller. destruct (callers s !! i) as [[| |k| |]|] eqn:Hi; try discriminate.
    intros [= <-] Hle. cbn [populateCacheGroup callers setCaller].
    match goal with
    | |- context [<[i := ?c]> _] => pose proof (countJoined_insert _ _ _ c Hi) as Hc
    end.
    simpl in Hc. lia.
  - unfold fnReturns, settle.
    destruct (inFlight _ !! _) as [k|]; [|discriminate].
    destruct (readFromSystemTables k) as [aInfo err].
    intros [= <-] Hle. simpl. rewrite length_insert. exact Hle.
Qed.

(** X19: the callback is executed at most once for every caller that went
    to the coalescing group. In every state that [n] concurrent calls can
    reach, the number of executions started is at most the number of callers
    that missed the cache and handed over a request, hence at most [n], and
    it is zero as long as every call was served from the cache. *)
Theorem executions_bounded_by_callers (w0 : World) (n : nat) (sched : list Event)
    (s : System) :
  runX sched (initial w0 n) = Some s ->
  (length (futures (populateCacheGroup s)) <= countJoined (callers s))%nat
  /\ (countJoined (callers s) <= n)%nat
  /\ ((forall i c, callers s !! i = Some c -> joined c = false) ->
      futures (populateCacheGroup s) = []).
Proof.
  intros Hrun.
  assert (Hgen : forall sched s0 s1,
            runX sched s0 = Some s1 ->
            (length (futures (populateCacheGroup s0)) <= countJoined (callers s0))%nat ->
            (length (futures (populateCacheGroup s1)) <= countJoined (callers s1))%nat
            /\ length (callers s1) = length (callers s0)).
  { clear. intros sched. induction sched as [|ev sched IH]; intros s0 s1; simpl.
    - intros [= <-] Hle. auto.
    - destruct (stepX ev s0) as [s'|] eqn:Hstep; [|discriminate].
      intros Hrun Hle.
      destruct (IH _ _ Hrun (step_executions _ _ _ Hstep Hle)) as [Hle' Hlen].
      split; [exact Hle'|]. rewrite Hlen.
      eapply step_callers_length; eauto. }
  destruct (Hgen _ _ _ Hrun) as [Hle Hlen].
  { simpl. lia. }
  simpl in Hlen. rewrite length_replicate in Hlen.
  split; [exact Hle|]. split.
  - pose proof (countJoined_le_length (callers s)). lia.
  - intros Hnone.
    assert (Hzero : countJoined (callers s) = 0%nat).
    { clear -Hnone. induction (callers s) as [|c l IH]; [reflexivity|].
      simpl. rewrite (Hnone 0%nat c eq_refl). simpl.
      apply IH. intros i c' Hi. apply (Hnone (S i)). exact Hi. }
    rewrite Hzero in Hle. destruct (futures (populateCacheGroup s)); [reflexivity|].
    simpl in Hle. lia.
Qed.

(** An event of another caller, or the return of the load function, does
    not look at caller [i]. *)
Lemma step_other_caller ev s s2 i :
  eventCaller ev <> Some i -> stepX ev s = Some s2 -> callers s2 !! i = callers s !! i.
Proof.
  intros Hev. destruct ev as [j|j e'|]; cbn [step eventCaller] in *.
  - assert (Hne : j <> i) by congruence.
    unfold stepCaller. destruct (callers s !! j) as [c|]; [|discriminate].
    destruct c as [| |k'|k' fetched|src res]; [| | | |discriminate].
    + rewrite locked_run. destruct (fst _) as [aInfo [|]]; intros [= <-];
        cbn [callers setCaller]; apply list_lookup_insert_ne; exact Hne.
    + destruct (DoChan _ _) as [k2 g]. intros [= <-].
      cbn [callers setCaller]. apply list_lookup_insert_ne; exact Hne.
    + destruct (futures _ !! k') as [[res|]|]; try discriminate.
      destruct (loadCacheValue _) as [[fetched|es] [e|]]; try discriminate;
        intros [= <-]; cbn [callers setCaller]; apply list_lookup_insert_ne; exact Hne.
    + destruct (maybeWriteAuthInfoBackToCache _ _ _ _ _) as [b w|]; [|discriminate].
      intros [= <-]. cbn [callers setCaller]. apply list_lookup_insert_ne; exact Hne.
  - assert (Hne : j <> i) by congruence.
    unfold cancelCaller. destruct (callers s !! j) as [[| |k'| |]|]; try discriminate.
    intros [= <-]. cbn [callers setCaller]. apply list_lookup_insert_ne; exact Hne.
  - unfold fnReturns.
    destruct (inFlight _ !! _) as [k'|]; [|discriminate].
    destruct (readFromSystemTables k') as [aInfo err].
    destruct (settle _ _ _) as [g|]; [|discriminate].
    intros [= <-]. reflexivity.
Qed.

Lemma setCaller_commute i j c c' w g s :
  i <> j ->
  setCaller j c' w g (setCaller i c (world s) (populateCacheGroup s) s)
  = setCaller i c w g (setCaller j c' w g s).
Proof.
  intros Hne. unfold setCaller. cbn [callers]. f_equal.
  apply list_insert_insert_ne. congruence.
Qed.

(** Moving caller [i] on first makes no difference to such an event. *)
Lemma step_frame ev s i c :
  eventCaller ev <> Some i ->
  stepX ev (setCaller i c (world s) (populateCacheGroup s) s)
  = option_map (fun s2 => setCaller i c (world s2) (populateCacheGroup s2) s2) (stepX ev s).
Proof.
  intros Hev. destruct ev as [j|j e'|]; cbn [step eventCaller] in *.
  - assert (Hne : i <> j) by congruence.
    unfold stepCaller. cbn [callers world populateCacheGroup setCaller].
    rewrite list_lookup_insert_ne by exact Hne.
    destruct (callers s !! j) as [c0|]; [|reflexivity].
    destruct c0 as [| |k'|k' fetched|src res]; [| | | |reflexivity].
    + rewrite locked_run. destruct (fst _) as [aInfo [|]]; cbn [option_map];
        f_equal; apply (setCaller_commute i j); exact Hne.
    + destruct (DoChan _ _) as [k2 g]. cbn [option_map]. f_equal.
      apply (setCaller_commute i j); exact Hne.
    + destruct (futures _ !! k') as [[res|]|]; try reflexivity.
      destruct (loadCacheValue _) as [[fetched|es] [e|]]; try reflexivity;
        cbn [option_map]; f_equal; apply (setCaller_commute i j); exact Hne.
    + destruct (maybeWriteAuthInfoBackToCache _ _ _ _ _) as [b w|]; [|reflexivity].
      cbn [option_map]. f_equal. apply (setCaller_commute i j); exact Hne.
  - assert (Hne : i <> j) by congruence.
    unfold cancelCaller. cbn [callers world populateCacheGroup setCaller].
    rewrite list_lookup_insert_ne by exact Hne.
    destruct (callers s !! j) as [[| |k'| |]|]; try reflexivity.
    cbn [option_map]. f_equal. apply (setCaller_commute i j); exact Hne.
  - unfold fnReturns. cbn [callers world populateCacheGroup setCaller].
    destruct (inFlight _ !! _) as [k'|]; [|reflexivity].
    destruct (readFromSystemTables k') as [aInfo err].
    destruct (settle _ _ _) as [g|]; reflexivity.
Qed.

(** X20: a caller's cancellation touches nothing but that caller. It
    leaves the cache, the log and the coalescing group as they are, and it
    commutes with every event of another caller and with the return of the
    load function: whatever could happen before the cancellation can happen
    after it, with the same outcome. *)
Theorem cancellation_is_local (i : nat) (ctxErr : error) (s s1 : System) :
  cancelCaller i ctxErr s = Some s1 ->
  world s1 = world s
  /\ populateCacheGroup s1 = populateCacheGroup s
  /\ (forall j, j <> i -> callers s1 !! j = callers s !! j)
  /\ (forall ev s2,
        eventCaller ev <> Some i ->
        stepX ev s = Some s2 ->
        exists s3, stepX ev s1 = Some s3 /\ cancelCaller i ctxErr s2 = Some s3).
Proof.
  unfold cancelCaller.
  destruct (callers s !! i) as [[| |k| |]|] eqn:Hi; try discriminate.
  intros [= <-].
  split; [reflexivity|]. split; [reflexivity|]. split.
  { intros j Hne. cbn [callers setCaller]. apply list_lookup_insert_ne. congruence. }
  intros ev s2 Hev Hstep.
  exists (setCaller i (Returned FromContext (AuthInfo_zero, snd (loadCacheValue (CtxDone ctxErr))))
            (world s2) (populateCacheGroup s2) s2).
  split.
  - rewrite step_frame by exact Hev. rewrite Hstep. reflexivity.
  - rewrite (step_other_caller _ _ _ _ Hev Hstep), Hi. reflexivity.
Qed.

End ExecutionsAndCallers.

(** ** Formatting the regions of a super region *)

Lemma append_empty_r (s : string) : s +:+ "" = s.
Proof. induction s as [|c s IH]; rewrite ?append_nil, ?append_cons; [reflexivity | by f_equal]. Qed.

Section TreeFormatFacts.

Variable formatName : string -> string.

Lemma concat_comma_cons x xs :
  String.concat "," (x :: xs)
  = x +:+ foldr (fun r acc => "," +:+ r +:+ acc) "" xs.
Proof.
  revert x. induction xs as [|y xs IH]; intros x.
  - simpl. rewrite append_empty_r. reflexivity.
  - change (String.concat "," (x :: y :: xs))
      with (x +:+ "," +:+ String.concat "," (y :: xs)).
    rewrite IH. reflexivity.
Qed.

Lemma formatRegions_later i regions ctx :
  formatRegions formatName (S i) regions ctx
  = ctx +:+ foldr (fun r acc => "," +:+ r +:+ acc) "" (map formatName regions).
Proof.
  revert i ctx. induction regions as [|r rest IH]; intros i ctx; simpl.
  - rewrite append_empty_r. reflexivity.
  - rewrite IH. unfold FormatNode, WriteString. rewrite !append_assoc. reflexivity.
Qed.

(** X21: AlterDatabaseAddSuperRegion.Format writes, after what the context
    already holds, the statement head and then the formatted regions
    separated by single commas: no comma before the first region or after
    the last, and nothing at all for an empty list of regions. *)
Theorem AddSuperRegion_Format_joins_regions (node : AlterDatabaseAddSuperRegion)
    (ctx : string) :
  AlterDatabaseAddSuperRegion_Format formatName node ctx
  = ctx +:+ "ALTER DATABASE " +:+ formatName (DatabaseName node)
    +:+ " ADD SUPER REGION " +:+ formatName (SuperRegionName node)
    +:+ " VALUES " +:+ String.concat "," (map formatName (Regions node)).
Proof.
  unfold AlterDatabaseAddSuperRegion_Format.
  destruct (Regions node) as [|r rest]; cbn [formatRegions map].
  - unfold FormatNode, WriteString. cbn [String.concat].
    rewrite !append_assoc, append_empty_r. reflexivity.
  - rewrite formatRegions_later, concat_comma_cons.
    unfold FormatNode, WriteString. rewrite !append_assoc. reflexivity.
Qed.

End TreeFormatFacts.

(** ** The further properties at work on the example data *)

Lemma clearCacheIfStale_verdict_witness :
  watermarks (snd (clearCacheIfStale 5 3 1 (NewCache Ex.roomy))) = (5, 3, 1)%N.
Proof.
  apply (proj2 (clearCacheIfStale_verdict 5 3 1 (NewCache Ex.roomy))).
  reflexivity.
Defined.

Lemma hit_only_at_callers_versions_witness :
  readAuthInfoFromCache 5 3 Ex.alice (cache Ex2.aliceCached)
    = ((Ex.aliceInfo, true), cache Ex2.aliceCached)
  /\ usersTableVersion (cache Ex2.aliceCached) = 5%N
  /\ roleOptionsTableVersion (cache Ex2.aliceCached) = 3%N.
Proof.
  assert (Hread : readAuthInfoFromCache 5 3 Ex.alice (cache Ex2.aliceCached)
                  = ((Ex.aliceInfo, true), cache Ex2.aliceCached))
    by (vm_compute; reflexivity).
  split; [exact Hread|].
  destruct (proj1 hit_only_at_callers_versions 5%N 3%N Ex.alice _ _ _ Hread)
    as (_ & Hu & Hr & _).
  split; assumption.
Defined.

Lemma authInfo_writeback_then_read_witness :
  exists w',
    maybeWriteAuthInfoBackToCache 5 3 Ex.aliceInfo Ex.alice Ex2.afterRead = Ok true w'
    /\ readAuthInfoFromCache 5 3 Ex.alice (cache w') = ((Ex.aliceInfo, true), cache w').
Proof.
  destruct (authInfo_writeback_then_read 5 3 Ex.aliceInfo Ex.alice Ex2.afterRead ∅)
    as (w' & Hrun & Hread & _); try reflexivity.
  exists w'. split; assumption.
Defined.

Lemma authInfo_writeback_charges_again_witness :
  exists w1 w2,
    maybeWriteAuthInfoBackToCache 5 3 Ex.aliceInfo Ex.alice Ex2.afterRead = Ok true w1
    /\ maybeWriteAuthInfoBackToCache 5 3 Ex.aliceInfo Ex.alice w1 = Ok true w2
    /\ authInfoCache (cache w2) = authInfoCache (cache w1)
    /\ used (boundAccount (cache w2)) = 156.
Proof.
  destruct (authInfo_writeback_charges_again 5 3 Ex.aliceInfo Ex.alice Ex2.afterRead ∅)
    as (w1 & w2 & H1 & H2 & _ & Hsame & _ & Hused);
    try reflexivity; try (vm_compute; discriminate).
  exists w1, w2. split; [exact H1|]. split; [exact H2|]. split; [exact Hsame|].
  rewrite Hused. reflexivity.
Defined.

Lemma settings_writeback_first_wins_witness :
  exists w' g',
    maybeWriteDefaultSettingsBackToCache 2 Ex2.rivalEntries Ex2.threeOfFourWorld = Ok true w'
    /\ settingsCache (cache w') = Some g'
    /\ g' !! entryKey (Ex.entry 7 Ex.bob []) = Some ["timezone=utc"]
    /\ g' !! entryKey (Ex.entry 0 defaultUsername []) = Some ["z=3"].
Proof.
  destruct (settings_writeback_first_wins 2 Ex2.rivalEntries Ex2.threeOfFourWorld
              Ex2.threeCached)
    as (w' & g' & Hrun & Hmap & Hlook & _); try reflexivity.
  exists w', g'. split; [exact Hrun|]. split; [exact Hmap|].
  rewrite !Hlook. split; reflexivity.
Defined.

Lemma settings_writeback_then_read_witness :
  exists w',
    maybeWriteDefaultSettingsBackToCache 2 Ex.bobEntries Ex2.afterSettingsRead = Ok true w'
    /\ fst (readDefaultSettingsFromCache 2 Ex.bob 7 (cache w')) = (Ex.bobEntries, true).
Proof.
  destruct (settings_writeback_then_read 2 Ex.bob 7 Ex.bobEntries Ex2.afterSettingsRead ∅)
    as (w' & Hrun & Hhit & _ & Hexact); try reflexivity.
  exists w'. split; [exact Hrun|].
  destruct (readDefaultSettingsFromCache 2 Ex.bob 7 (cache w')) as [[es found] a'].
  simpl in *. subst found. f_equal. apply Hexact.
  - intros k _. apply lookup_empty.
  - unfold GenerateSettingsCacheKeys.
    repeat (apply NoDup_cons; split); [| | | | apply NoDup_nil; exact I];
      rewrite ?elem_of_cons, ?elem_of_nil; intros H;
      repeat (destruct H as [H|H]); try exact H; discriminate.
Defined.

Lemma GetAuthInfo_bypass_witness :
  GetAuthInfo Ex2.disabled Ex.alice Ex.authReader (Ex.fresh Ex.roomy)
  = Ok (Ex.aliceInfo, None) (Ex.fresh Ex.roomy).
Proof.
  apply (proj1 (GetAuthInfo_bypass Ex2.disabled Ex.alice Ex.authReader (Ex.fresh Ex.roomy))).
  reflexivity.
Defined.

Lemma GetDefaultSettings_bypass_witness :
  GetDefaultSettings (Ex.env (Ex.delivered (ISettings Ex.bobEntries)) (fun c => c))
    Ex.bob "nope" Ex.settingsReader (Ex.fresh Ex.roomy)
  = GetDefaultSettings (Ex.env (Ex.delivered (ISettings Ex.bobEntries)) (fun c => c))
      Ex.bob "" Ex.settingsReader (Ex.fresh Ex.roomy).
Proof.
  apply (proj2 (proj2 (proj2 (GetDefaultSettings_bypass
                                (Ex.env (Ex.delivered (ISettings Ex.bobEntries)) (fun c => c))
                                Ex.bob "nope" Ex.settingsReader (Ex.fresh Ex.roomy))))).
  reflexivity.
Defined.

Lemma hit_served_without_load_witness :
  exists ai,
    mapGet (authInfoCache (cache Ex2.aliceCached)) Ex.alice = Some ai
    /\ GetAuthInfo (Ex.env (CtxDone "unused") (fun c => c)) Ex.alice Ex.authReader
         Ex2.aliceCached
       = Ok (ai, None) Ex2.aliceCached.
Proof.
  apply (proj1 hit_served_without_load
           (Ex.env (CtxDone "unused") (fun c => c)) Ex.alice Ex.authReader Ex2.aliceCached
           (Ex.committed 5) (Ex.committed 3)); reflexivity.
Defined.


Lemma GetAuthInfo_errors_are_collaborators_witness :
  Ex.authReader Ex.alice = (AuthInfo_zero, Some "context canceled"%string)
  \/ (AuthInfo_zero = AuthInfo_zero
      /\ (Ex.catalog UsersTableName = inr "context canceled"%string
          \/ Ex.catalog RoleOptionsTableName = inr "context canceled"%string
          \/ CtxDone "context canceled" = CtxDone "context canceled"
          \/ exists val,
               CtxDone "context canceled"
               = Received {| Val := val; Err := Some "context canceled"%string |})).
Proof.
  apply (GetAuthInfo_errors_are_collaborators
           (Ex.env (CtxDone "context canceled") (fun c => c)) Ex.alice Ex.authReader
           (Ex.fresh Ex.roomy) Ex2.afterRead AuthInfo_zero "context canceled").
  reflexivity.
Defined.

Lemma allocated_maps_never_panic_witness :
  exists w',
    runOp (OpWriteAuthInfo 5 3 Ex.aliceInfo Ex.alice) Ex2.afterRead = Ok tt w'
    /\ allocated (cache w').
Proof.
  apply (proj1 (allocated_maps_never_panic Ex2.afterRead
                  (conj (ex_intro _ ∅ eq_refl) (ex_intro _ ∅ eq_refl)))).
Defined.

Lemma GetAuthInfo_returns_at_real_versions_witness :
  exists res w',
    GetAuthInfo (Ex.env (Ex.delivered (IAuthInfo Ex.aliceInfo)) (fun c => c))
      Ex.alice Ex.authReader (Ex.fresh Ex.roomy) = Ok res w'.
Proof.
  apply (GetAuthInfo_returns_at_real_versions Ex.roomy).
  - constructor.
  - intros usersDesc roleDesc [= <-] _. left. reflexivity.
  - intros c Hc. exact Hc.
  - intros es. discriminate.
Defined.


Lemma request_keys_injective_witness :
  Ex.alice = Ex.alice /\ 5%N = 5%N /\ 3%N = 3%N.
Proof.
  apply (proj1 request_keys_injective Ex.alice 5%N 3%N Ex.alice 5%N 3%N). reflexivity.
Defined.

Lemma zero_budget_caches_nothing_witness :
  exists w,
    runOps Ex2.someOps {| cache := NewCache Ex.full; opsLog := [] |} = Ok tt w
    /\ (forall u, mapGet (authInfoCache (cache w)) u = None)
    /\ (forall k, mapGet (settingsCache (cache w)) k = None).
Proof.
  apply (zero_budget_caches_nothing Ex.full Ex2.someOps).
  - reflexivity.
  - vm_compute. discriminate.
  - repeat constructor; vm_compute; reflexivity.
Defined.

Lemma executions_bounded_by_callers_witness :
  (length (futures (populateCacheGroup Ex2.lateJoined)) <= countJoined (callers Ex2.lateJoined))%nat.
Proof.
  apply (executions_bounded_by_callers Ex.alice 5 3 Ex.flakyReader
           (Ex.fresh Ex.roomy) 2 Ex.lateJoin Ex2.lateJoined).
  vm_compute. reflexivity.
Defined.

Lemma cancellation_is_local_witness :
  world Ex2.oneCancelled = world Ex.bothWaiting
  /\ populateCacheGroup Ex2.oneCancelled = populateCacheGroup Ex.bothWaiting.
Proof.
  destruct (cancellation_is_local Ex.alice 5 3 Ex.flakyReader 1 "context canceled"
              Ex.bothWaiting Ex2.oneCancelled) as (Hw & Hg & _).
  - vm_compute. reflexivity.
  - split; assumption.
Defined.
